(** * gitcng: a walker over a directory tree that reports, for every git
    repository it finds, the number of local changes and the number of
    commits the remote branch is ahead.

    The development embeds the Go sources (gitstuff.go and the two variants
    of the main program) as Rocq functions and proves the properties of the
    specification about them.  Library calls (go-git, net/url, os, ioutil,
    the ssh agent) are not part of the repository: their results are given
    by the "world" the program runs in. *)

From Stdlib Require Import ZArith Lia Ascii String DecimalString.
From stdpp Require Import gmap strings list fin_maps.

Local Open Scope Z_scope.
Local Open Scope string_scope.

(** ** Go's [int] *)

Module GoInt.

(** [int] is a 64-bit two's complement integer on the platforms the tool
    runs on; arithmetic wraps around. *)
Definition min_int : Z := - 2 ^ 63.
Definition max_int : Z := 2 ^ 63 - 1.

Definition wrap (z : Z) : Z := (z + 2 ^ 63) mod 2 ^ 64 - 2 ^ 63.

(** [n++] *)
Definition incr (n : Z) : Z := wrap (n + 1).

End GoInt.

(** ** Errors

    Go compares error values with [==] against sentinels.  The sources test
    for two of them; every other error is identified by its message. *)
Inductive error : Type :=
| ErrStop                      (* storer.ErrStop, as imported by the sources *)
| NoErrAlreadyUpToDate         (* git.NoErrAlreadyUpToDate *)
| ErrOther (msg : string).

Global Instance error_eq_dec : EqDecision error.
Proof. solve_decision. Defined.

(** A Go result [(v, err)]: either the error or the value. *)
Inductive result (A : Type) : Type :=
| Err (e : error)
| Ok (a : A).
Global Arguments Err {A} e.
Global Arguments Ok {A} a.

(** ** Status snapshots (go-git's [git.Status]) *)

(** Modelled from the spec: go-git's [StatusCode] is declared outside the
    repository; these are the states the data model names, with go-git's
    identifiers. *)
Inductive StatusCode : Type :=
| Unmodified
| Untracked
| Modified
| Added
| Deleted
| Renamed
| Copied
| UpdatedButUnmerged.

Global Instance StatusCode_eq_dec : EqDecision StatusCode.
Proof. solve_decision. Defined.

Record FileStatus : Type := mkFileStatus {
  Staging : StatusCode;
  Worktree : StatusCode;
  Extra : string
}.

(** [git.Status] is [map[string]*FileStatus]; the snapshots go-git builds
    hold no nil pointer, so a value is the file status itself. *)
Abbreviation Status := (gmap string FileStatus).

(** The test of the loop body:
    [s.Staging != git.Unmodified || s.Worktree != git.Unmodified]. *)
Definition changed (s : FileStatus) : bool :=
  negb (bool_decide (Staging s = Unmodified))
  || negb (bool_decide (Worktree s = Unmodified)).

(** [for _, s := range status { if ... { changes++ } }], run over the
    entries in the order the map iteration happens to produce them. *)
Fixpoint countChanges_range (order : list (string * FileStatus)) (changes : Z) : Z :=
  match order with
  | [] => changes
  | (_, s) :: rest =>
      countChanges_range rest (if changed s then GoInt.incr changes else changes)
  end.

(** [countChanges]: Go leaves the iteration order of a map unspecified;
    [map_to_list] is one such order, and [countChanges_range] runs any. *)
Definition countChanges (status : Status) : Z :=
  countChanges_range (map_to_list status) 0.

(** The entries of a snapshot that count as a change. *)
Definition isChange (kv : string * FileStatus) : Prop := changed kv.2 = true.

Global Instance isChange_dec kv : Decision (isChange kv).
Proof. unfold isChange. apply _. Defined.

Definition changedEntries (status : Status) : Status :=
  filter isChange status.

(** ** Commit history (go-git's plumbing) *)

(** [plumbing.Hash] is a 20-byte array compared with [==]; it is read here
    as the number its bytes spell. *)
Definition Hash : Type := N.

(** [plumbing.Reference]: a symbolic name and the hash it points at. *)
Record Reference : Type := mkReference {
  refName : string;
  refHash : Hash
}.

(** [object.Commit]; the tool reads nothing but its hash. *)
Record Commit : Type := mkCommit {
  commitHash : Hash
}.

(** [object.CommitIter]: the commits [Next] produces, in order, and how the
    sequence ends: [None] for [io.EOF], [Some e] for a traversal error. *)
Record CommitIter : Type := mkCommitIter {
  iterCommits : list Commit;
  iterEnd : option error
}.

(** Probe of the history traversal: every call of [r.Log] and every commit
    request made to an iterator is recorded. *)
Inductive GitCall : Type :=
| CallLog (from : Hash)
| CallNext.

(** [cIter.ForEach(cb)], go-git's loop: ask for the next commit, hand it to
    the callback, stop at the first error.  The callback is a closure over
    a variable of the caller, modelled as the state [S].  go-git turns its
    own stop sentinel into nil; the sources import the sentinel from another
    module path than the iterator, so whether the one they return is
    recognised is left to [stopIsNil].  The last component counts the calls
    of [Next]. *)
Fixpoint ForEach {S : Type} (stopIsNil : bool) (cs : list Commit)
    (fin : option error) (cb : Commit -> S -> option error * S) (s : S)
    : option error * S * nat :=
  match cs with
  | [] => (fin, s, 1%nat)
  | c :: cs' =>
      match cb c s with
      | (None, s') =>
          let '(e, s'', n) := ForEach stopIsNil cs' fin cb s' in
          (e, s'', Datatypes.S n)
      | (Some e, s') =>
          (if stopIsNil && bool_decide (e = ErrStop) then None else Some e,
           s', 1%nat)
      end
  end.

(** ** The world of one repository *)

(** [config.RemoteConfig], as far as the tool reads it. *)
Record Remote : Type := mkRemote {
  remoteName : string;
  remoteURLs : list string
}.

(** [gogitssh.PublicKeysCallback]: the user name and whether host keys are
    accepted unchecked. *)
Record Auth : Type := mkAuth {
  authUser : string;
  insecureIgnoreHostKey : bool
}.

Record FetchOptions : Type := mkFetchOptions {
  RemoteName : string;
  FetchAuth : Auth
}.

(** [git.Worktree]: what [w.Status()] returns. *)
Record WorktreeHandle : Type := mkWorktree {
  w_Status : result Status
}.

(** [git.Repository]: the answers of the go-git calls the tool makes on an
    opened repository. *)
Record Repository : Type := mkRepository {
  r_Worktree : result WorktreeHandle;
  r_Remotes : result (list Remote);
  r_Fetch : FetchOptions -> option error;
  r_Head : result Reference;
  r_Reference : string -> bool -> result Reference;
  r_Log : Hash -> result CommitIter;
  r_stopIsNil : bool
}.

(** An ssh signer held by the agent, named by its key comment. *)
Definition Signer : Type := string.

(** The connection to the agent and what [Signers] answers on it. *)
Record AgentConn : Type := mkAgentConn {
  agent_Signers : result (list Signer)
}.

(** The process environment during one visit. *)
Record Env : Type := mkEnv {
  os_Getenv : string -> string;
  net_Dial : string -> string -> result AgentConn;
  NewSSHAgentAuth : string -> result Auth
}.

(** ** net/url, path/filepath and reference names *)

Record Userinfo : Type := mkUserinfo {
  ui_username : string;
  ui_password : option string
}.

(** [url.URL]; the tool reads nothing but [User]. *)
Record URL : Type := mkURL {
  User : option Userinfo
}.

(** [u.User.Username()]: the empty string on a nil [Userinfo]. *)
Definition Username (u : option Userinfo) : string :=
  match u with
  | None => ""
  | Some ui => ui_username ui
  end.

(** The pure library functions the walker calls. *)
Class GoLibs : Type := {
  url_Parse : string -> result URL;
  filepath_Join : string -> string -> string;
  ReferenceName_Short : string -> string
}.

(** [plumbing.NewRemoteReferenceName(remote, name)]. *)
Definition NewRemoteReferenceName (remote name : string) : string :=
  "refs/remotes/" +:+ remote +:+ "/" +:+ name.

(** ** strings *)

(** [strings.HasPrefix(s, prefix)] *)
Fixpoint strings_HasPrefix (s prefix : string) {struct prefix} : bool :=
  match prefix with
  | EmptyString => true
  | String p prefix' =>
      match s with
      | EmptyString => false
      | String c s' => bool_decide (c = p) && strings_HasPrefix s' prefix'
      end
  end.

(** [strings.Split(s, sep)] for a separator of one byte: the pieces between
    the occurrences of [sep], at least one piece. *)
Fixpoint strings_Split (s : string) (sep : ascii) : list string :=
  match s with
  | EmptyString => [""]
  | String c s' =>
      if bool_decide (c = sep) then "" :: strings_Split s' sep
      else
        match strings_Split s' sep with
        | [] => [String c ""]
        | piece :: pieces => String c piece :: pieces
        end
  end.

(** ** gitstuff.go: countRemoteChanges *)

(** The callback handed to [ForEach]: stop at the local HEAD, otherwise
    count the commit.  The state is the captured [remoteChanges]. *)
Definition countCallback (headRef : Reference) (c : Commit) (remoteChanges : Z)
    : option error * Z :=
  if N.eqb (commitHash c) (refHash headRef) then (Some ErrStop, remoteChanges)
  else (None, GoInt.incr remoteChanges).

(** [countRemoteChanges(r, headRef, remoteRef)]: the pair [(int, error)]
    it returns and the calls it made on the history. *)
Definition countRemoteChanges (r : Repository) (headRef remoteRef : Reference)
    : (Z * option error) * list GitCall :=
  if N.eqb (refHash headRef) (refHash remoteRef) then ((0, None), [])
  else
    match r_Log r (refHash remoteRef) with
    | Err e => ((0, Some e), [CallLog (refHash remoteRef)])
    | Ok cIter =>
        let '(err, remoteChanges, nexts) :=
          ForEach (r_stopIsNil r) (iterCommits cIter) (iterEnd cIter)
                  (countCallback headRef) 0 in
        let calls := CallLog (refHash remoteRef) :: replicate nexts CallNext in
        match err with
        | Some e =>
            if bool_decide (e = ErrStop) then ((remoteChanges, None), calls)
            else ((0, Some e), calls)
        | None => ((remoteChanges, None), calls)
        end
    end.

(** A commit other than the one the local HEAD points at. *)
Definition notHead (headRef : Reference) (c : Commit) : Prop :=
  commitHash c <> refHash headRef.

(** ** The main program: the visit of a repository *)

(** [repoStatus] ([RepoStatus] in the second variant). *)
Record repoStatus : Type := mkRepoStatus {
  Path : string;
  LocalChanges : Z;
  RemoteChanges : Z
}.

(** The steps of a visit that can fail. *)
Inductive Failure : Type :=
| WorktreeFailure
| StatusFailure
| AgentUnavailable
| NoSigners
| RemoteLookupFailure
| URLParseFailure
| AuthFailure
| FetchFailure
| HeadResolutionFailure
| RemoteRefResolutionFailure
| HistoryWalkFailure
| DirectoryReadFailure.

Global Instance Failure_eq_dec : EqDecision Failure.
Proof. solve_decision. Defined.

(** What the walker writes with [log.Printf]. *)
Inductive LogLine : Type :=
| Visiting (path : string) (depth : Z)
| Checking (path : string)
| Failed (f : Failure) (path : string) (e : option error).

(** A computation inside a visit: it goes on with a value, gives the visit
    up ([log.Printf] and [return]), or panics. *)
Inductive step (A : Type) : Type :=
| Next (a : A)
| Abandon (f : Failure) (e : option error)
| Panic.
Global Arguments Next {A} a.
Global Arguments Abandon {A} f e.
Global Arguments Panic {A}.

Definition step_bind {A B : Type} (c : step A) (k : A -> step B) : step B :=
  match c with
  | Next a => k a
  | Abandon f e => Abandon f e
  | Panic => Panic
  end.

Declare Scope step_scope.
Delimit Scope step_scope with step.
Notation "x <- c ;; k" := (step_bind c (fun x => k))
  (at level 100, c at next level, right associativity) : step_scope.

(** [v, err := call; if err != nil { log...; return }] *)
Definition try {A : Type} (f : Failure) (r : result A) : step A :=
  match r with
  | Err e => Abandon f (Some e)
  | Ok a => Next a
  end.

(** [getSignersFromAgent] *)
Definition getSignersFromAgent (env : Env) : result (list Signer) :=
  let socket := os_Getenv env "SSH_AUTH_SOCK" in
  match net_Dial env "unix" socket with
  | Err e => Err e
  | Ok conn =>
      match agent_Signers conn with
      | Err e => Err e
      | Ok signers => Ok signers
      end
  end.

Section Visit.

Context `{GoLibs}.

(** The body of [for _, remote := range remotes], with [username] the
    variable it assigns.  [URLs[0]] panics on a remote without URL. *)
Definition usernameOfRemote (remote : Remote) (username : string) : step string :=
  if bool_decide (remoteName remote = "origin") then
    match remoteURLs remote with
    | [] => Panic
    | remoteURL :: _ =>
        if strings_HasPrefix remoteURL "git@" then
          let parts := strings_Split remoteURL "@"%char in
          if Z.ltb 1 (Z.of_nat (length parts)) then
            match parts with
            | part0 :: _ => Next part0
            | [] => Panic
            end
          else Next username
        else
          match url_Parse remoteURL with
          | Err e => Abandon URLParseFailure (Some e)
          | Ok u => Next (Username (User u))
          end
    end
  else Next username.

Fixpoint usernameLoop (remotes : list Remote) (username : string) : step string :=
  match remotes with
  | [] => Next username
  | remote :: rest =>
      (username' <- usernameOfRemote remote username ;;
       usernameLoop rest username')%step
  end.

(** The user name the fetch authenticates with: the loop, then the
    fall-back to [git]. *)
Definition deriveUsername (remotes : list Remote) : step string :=
  (username <- usernameLoop remotes "" ;;
   Next (if bool_decide (username = "") then "git" else username))%step.

(** [err != nil && err != git.NoErrAlreadyUpToDate] *)
Definition fetchFailed (err : option error) : bool :=
  match err with
  | None => false
  | Some e => negb (bool_decide (e = NoErrAlreadyUpToDate))
  end.

(** The branch [if err == nil] of [visitAndCheckGit]: everything between
    [git.PlainOpen] succeeding and the [append]. *)
Definition checkRepository (r : Repository) (env : Env) (path : string)
    : step repoStatus :=
  (w <- try WorktreeFailure (r_Worktree r) ;;
   status <- try StatusFailure (w_Status w) ;;
   let localChanges := countChanges status in
   signers <- try AgentUnavailable (getSignersFromAgent env) ;;
   _ <- (if Z.eqb (Z.of_nat (length signers)) 0 then Abandon NoSigners None
         else Next tt) ;;
   remotes <- try RemoteLookupFailure (r_Remotes r) ;;
   username <- deriveUsername remotes ;;
   auth <- try AuthFailure (NewSSHAgentAuth env username) ;;
   let auth := {| authUser := authUser auth; insecureIgnoreHostKey := true |} in
   let err := r_Fetch r {| RemoteName := "origin"; FetchAuth := auth |} in
   _ <- (if fetchFailed err then Abandon FetchFailure err else Next tt) ;;
   headRef <- try HeadResolutionFailure (r_Head r) ;;
   remoteRef <- try RemoteRefResolutionFailure
     (r_Reference r
        (NewRemoteReferenceName "origin" (ReferenceName_Short (refName headRef)))
        true) ;;
   match fst (countRemoteChanges r headRef remoteRef) with
   | (_, Some e) => Abandon HistoryWalkFailure (Some e)
   | (remoteChanges, None) =>
       Next {| Path := path; LocalChanges := localChanges;
               RemoteChanges := remoteChanges |}
   end)%step.

End Visit.

(** ** The directory tree *)

(** [os.FileMode]: the type bits ([io/fs]). *)
Module FileMode.
Definition ModeDir : Z := Z.shiftl 1 31.
Definition ModeSymlink : Z := Z.shiftl 1 27.
Definition ModeDevice : Z := Z.shiftl 1 26.
Definition ModeNamedPipe : Z := Z.shiftl 1 25.
Definition ModeSocket : Z := Z.shiftl 1 24.
Definition ModeCharDevice : Z := Z.shiftl 1 21.
Definition ModeIrregular : Z := Z.shiftl 1 19.

Definition ModeType : Z :=
  Z.lor ModeDir (Z.lor ModeSymlink (Z.lor ModeNamedPipe
    (Z.lor ModeSocket (Z.lor ModeDevice (Z.lor ModeCharDevice ModeIrregular))))).

(** [m.IsDir()] *)
Definition IsDir (m : Z) : bool := negb (Z.eqb (Z.land m ModeDir) 0).

(** [m.Type()] *)
Definition Type_ (m : Z) : Z := Z.land m ModeType.
End FileMode.

(** The file system below a path: what [git.PlainOpen] gives at the path
    (the repository, with the process environment of that moment, or
    nothing when it returns an error), and what listing the directory
    gives.  An entry has its name, its mode as [lstat] reports it, and the
    tree found at the joined path; for a symbolic link that is the tree it
    points at.  The listing is the answer of the listing call of the
    variant that walks the tree.  [os.ReadDir] and [ioutil.ReadDir] can
    answer differently in one state of the file system ([ioutil.ReadDir]
    calls [lstat] on every entry and fails as a whole when one of these
    calls fails); where the variants are compared, a state is given by two
    trees, one as each call reports it. *)
Inductive FsNode : Type :=
| MkNode (opened : option (Repository * Env)) (listing : result (list DirEnt))
with DirEnt : Type :=
| MkEnt (name : string) (mode : Z) (target : FsNode).

Definition entName (f : DirEnt) : string := let 'MkEnt name _ _ := f in name.
Definition entMode (f : DirEnt) : Z := let 'MkEnt _ mode _ := f in mode.
Definition entTarget (f : DirEnt) : FsNode := let 'MkEnt _ _ target := f in target.

(** The two variants of the main program. *)
Inductive Variant : Type :=
| OsReadDir       (* os.ReadDir, entries are [fs.DirEntry] *)
| IoutilReadDir.  (* ioutil.ReadDir, entries are [fs.FileInfo] *)

(** The test on an entry before the recursive call.
    First variant:  [f.Type().IsDir() && f.Type()&os.ModeSymlink != os.ModeSymlink];
    second variant: [f.IsDir() && f.Mode()&os.ModeSymlink != os.ModeSymlink].
    A [DirEntry]'s [Type()] is the type bits of the entry's mode. *)
Definition descends (v : Variant) (mode : Z) : bool :=
  match v with
  | OsReadDir =>
      FileMode.IsDir (FileMode.Type_ mode)
      && negb (Z.eqb (Z.land (FileMode.Type_ mode) FileMode.ModeSymlink)
                     FileMode.ModeSymlink)
  | IoutilReadDir =>
      FileMode.IsDir mode
      && negb (Z.eqb (Z.land mode FileMode.ModeSymlink) FileMode.ModeSymlink)
  end.

(** ** The walker *)

(** The globals [repos] and the log stream. *)
Record Store : Type := mkStore {
  repos : list repoStatus;
  logged : list LogLine
}.

Definition say (l : LogLine) (st : Store) : Store :=
  {| repos := repos st; logged := (logged st ++ [l])%list |}.

(** [repos = append(repos, rec)] *)
Definition record (rec : repoStatus) (st : Store) : Store :=
  {| repos := (repos st ++ [rec])%list; logged := logged st |}.

(** A call of the walker returns, or the process dies in a panic. *)
Inductive run : Type :=
| Returned (st : Store)
| Panicked (st : Store).

Definition storeOf (r : run) : Store :=
  match r with
  | Returned st => st
  | Panicked st => st
  end.

Section Walker.

Context `{GoLibs}.
Variable variant : Variant.
Variable maxDepth : Z.

(** [for _, f := range files { if ... { visitAndCheckGit(...) } }] *)
Section Range.
Variable visit : FsNode -> string -> Z -> Store -> run.

Fixpoint rangeFiles (path : string) (depth : Z) (files : list DirEnt)
    (st : Store) : run :=
  match files with
  | [] => Returned st
  | MkEnt name mode target :: rest =>
      if descends variant mode then
        match visit target (filepath_Join path name) (GoInt.incr depth) st with
        | Returned st' => rangeFiles path depth rest st'
        | Panicked st' => Panicked st'
        end
      else rangeFiles path depth rest st
  end.
End Range.

(** [visitAndCheckGit(path, depth)], on the tree found at [path]. *)
Fixpoint visitAndCheckGit (n : FsNode) (path : string) (depth : Z)
    (st : Store) : run :=
  if Z.gtb depth maxDepth then Returned st
  else
    let st := say (Visiting path depth) st in
    match n with
    | MkNode (Some (r, env)) _ =>
        let st := say (Checking path) st in
        match checkRepository r env path with
        | Next rec => Returned (record rec st)
        | Abandon f e => Returned (say (Failed f path e) st)
        | Panic => Panicked st
        end
    | MkNode None (Err e) =>
        Returned (say (Failed DirectoryReadFailure path (Some e)) st)
    | MkNode None (Ok files) =>
        rangeFiles visitAndCheckGit path depth files st
    end.

End Walker.

(** [main]: the walk from the root at depth 0, with nothing recorded yet. *)
Definition emptyStore : Store := {| repos := []; logged := [] |}.

Definition mainWalk `{GoLibs} (variant : Variant) (maxDepth : Z)
    (root : FsNode) (rootPath : string) : run :=
  visitAndCheckGit variant maxDepth root rootPath 0 emptyStore.

(** ** A concrete set of library functions *)

Module Plain.

(** [strings.IndexByte] *)
Fixpoint indexByte (s : string) (c : ascii) : option nat :=
  match s with
  | EmptyString => None
  | String a s' =>
      if bool_decide (a = c) then Some 0%nat
      else Datatypes.S <$> indexByte s' c
  end.

(** [strings.LastIndexByte] *)
Fixpoint lastIndexByte (s : string) (c : ascii) : option nat :=
  match s with
  | EmptyString => None
  | String a s' =>
      match lastIndexByte s' c with
      | Some i => Some (Datatypes.S i)
      | None => if bool_decide (a = c) then Some 0%nat else None
      end
  end.

(** [strings.Cut(s, sep)], without the found flag *)
Definition cut (s : string) (sep : ascii) : string * string :=
  match indexByte s sep with
  | Some i => (substring 0 i s, substring (Datatypes.S i) (String.length s) s)
  | None => (s, "")
  end.

Definition between (lo hi : nat) (c : ascii) : bool :=
  Nat.leb lo (nat_of_ascii c) && Nat.leb (nat_of_ascii c) hi.

(** [stringContainsCTLByte] *)
Fixpoint containsCTL (s : string) : bool :=
  match s with
  | EmptyString => false
  | String a s' =>
      Nat.ltb (nat_of_ascii a) 32 || Nat.eqb (nat_of_ascii a) 127
      || containsCTL s'
  end.

(** [getScheme]: the scan over the bytes of [rawURL], at index [i]. *)
Fixpoint getSchemeFrom (rawURL : string) (i : nat) (s : string)
    : result (string * string) :=
  match s with
  | EmptyString => Ok ("", rawURL)
  | String c s' =>
      if between 97 122 c || between 65 90 c then
        getSchemeFrom rawURL (Datatypes.S i) s'
      else if between 48 57 c || bool_decide (c = "+"%char)
              || bool_decide (c = "-"%char) || bool_decide (c = "."%char) then
        if Nat.eqb i 0 then Ok ("", rawURL)
        else getSchemeFrom rawURL (Datatypes.S i) s'
      else if bool_decide (c = ":"%char) then
        if Nat.eqb i 0 then Err (ErrOther "missing protocol scheme")
        else Ok (substring 0 i rawURL, s')
      else Ok ("", rawURL)
  end.

Definition getScheme (rawURL : string) : result (string * string) :=
  getSchemeFrom rawURL 0 rawURL.

(** The user-info part of [parseAuthority]. *)
Definition authorityUser (authority : string) : option Userinfo :=
  match lastIndexByte authority "@"%char with
  | None => None
  | Some i =>
      let userinfo := substring 0 i authority in
      match indexByte userinfo ":"%char with
      | None => Some {| ui_username := userinfo; ui_password := None |}
      | Some _ =>
          let '(username, password) := cut userinfo ":"%char in
          Some {| ui_username := username; ui_password := Some password |}
      end
  end.

(** Modelled from the spec: the "standard URL parser" is Go's
    [net/url.Parse], which lies outside the repository; the walker takes it
    as the parameter [url_Parse], and this model serves the examples.  It
    follows [url.Parse] on the way to the user-info component: fragment
    and query are cut off, the scheme is split off, a rootless path makes
    the URL opaque under a scheme and is refused without one when its
    first segment holds a colon, and the authority after [//] gives the
    user.  Percent-escapes and the checks of host, path and fragment
    are left out. *)
Definition parseURL (rawURL : string) : result URL :=
  let u := fst (cut rawURL "#"%char) in
  if containsCTL u then
    Err (ErrOther "net/url: invalid control character in URL")
  else if bool_decide (u = "*") then Ok {| User := None |}
  else
    match getScheme u with
    | Err e => Err e
    | Ok (scheme, rest) =>
        let rest := fst (cut rest "?"%char) in
        let rootless := negb (strings_HasPrefix rest "/") in
        if rootless && negb (bool_decide (scheme = "")) then
          Ok {| User := None |}
        else if rootless
                && bool_decide (is_Some (indexByte (fst (cut rest "/"%char)) ":"%char)) then
          Err (ErrOther "first path segment in URL cannot contain colon")
        else if (negb (bool_decide (scheme = ""))
                 || negb (strings_HasPrefix rest "///"))
                && strings_HasPrefix rest "//" then
          let authority := fst (cut (substring 2 (String.length rest) rest) "/"%char) in
          Ok {| User := authorityUser authority |}
        else Ok {| User := None |}
    end.

(** [filepath.Join] on a clean directory path other than [.] and a plain
    file name. *)
Definition joinPath (path name : string) : string :=
  path +:+ "/" +:+ name.

(** [ReferenceName.Short] on branch names. *)
Definition shortName (name : string) : string :=
  if strings_HasPrefix name "refs/heads/"
  then substring 11 (String.length name) name
  else name.

Definition libs : GoLibs :=
  {| url_Parse := parseURL;
     filepath_Join := joinPath;
     ReferenceName_Short := shortName |}.

End Plain.

(** ** Notions the properties are stated with *)

(** The repository [r] with another answer of [Fetch]. *)
Definition withFetch (r : Repository) (fetch : FetchOptions -> option error)
    : Repository :=
  {| r_Worktree := r_Worktree r;
     r_Remotes := r_Remotes r;
     r_Fetch := fetch;
     r_Head := r_Head r;
     r_Reference := r_Reference r;
     r_Log := r_Log r;
     r_stopIsNil := r_stopIsNil r |}.

(** The options the visit fetches with, given the handle the agent made. *)
Definition fetchOptionsFor (auth : Auth) : FetchOptions :=
  {| RemoteName := "origin";
     FetchAuth := {| authUser := authUser auth; insecureIgnoreHostKey := true |} |}.

Definition notOrigin (remote : Remote) : Prop := remoteName remote <> "origin".

Section Stages.

Context `{GoLibs}.
Variable r : Repository.
Variable env : Env.

(** How far a visit got. *)
Definition statusTaken (status : Status) : Prop :=
  exists w, r_Worktree r = Ok w /\ w_Status w = Ok status.

Definition signersLoaded : Prop :=
  exists signers, getSignersFromAgent env = Ok signers /\ signers <> [].

Definition remotesListed (remotes : list Remote) : Prop :=
  (exists status, statusTaken status) /\ signersLoaded
  /\ r_Remotes r = Ok remotes.

Definition authBuilt (auth : Auth) : Prop :=
  exists remotes username,
    remotesListed remotes
    /\ deriveUsername remotes = Next username
    /\ NewSSHAgentAuth env username = Ok auth.

Definition fetched : Prop :=
  exists auth,
    authBuilt auth
    /\ (r_Fetch r (fetchOptionsFor auth) = None
        \/ r_Fetch r (fetchOptionsFor auth) = Some NoErrAlreadyUpToDate).

Definition remoteNameOf (headRef : Reference) : string :=
  NewRemoteReferenceName "origin" (ReferenceName_Short (refName headRef)).

(** A step of the processing sequence fails, the steps before it having
    succeeded. *)
Inductive stepFails : Failure -> Prop :=
| worktree_fails e :
    r_Worktree r = Err e ->
    stepFails WorktreeFailure
| status_fails w e :
    r_Worktree r = Ok w -> w_Status w = Err e ->
    stepFails StatusFailure
| signers_fail status e :
    statusTaken status -> getSignersFromAgent env = Err e ->
    stepFails AgentUnavailable
| signers_empty status :
    statusTaken status -> getSignersFromAgent env = Ok [] ->
    stepFails NoSigners
| remotes_fail status e :
    statusTaken status -> signersLoaded -> r_Remotes r = Err e ->
    stepFails RemoteLookupFailure
| url_parse_fails remotes before origin url urls after e :
    remotesListed remotes ->
    remotes = (before ++ origin :: after)%list ->
    Forall notOrigin before ->
    remoteName origin = "origin" ->
    remoteURLs origin = url :: urls ->
    strings_HasPrefix url "git@" = false ->
    url_Parse url = Err e ->
    stepFails URLParseFailure
| auth_fails remotes username e :
    remotesListed remotes ->
    deriveUsername remotes = Next username ->
    NewSSHAgentAuth env username = Err e ->
    stepFails AuthFailure
| fetch_fails auth e :
    authBuilt auth ->
    r_Fetch r (fetchOptionsFor auth) = Some e ->
    e <> NoErrAlreadyUpToDate ->
    stepFails FetchFailure
| head_fails e :
    fetched -> r_Head r = Err e ->
    stepFails HeadResolutionFailure
| remote_ref_fails headRef e :
    fetched -> r_Head r = Ok headRef ->
    r_Reference r (remoteNameOf headRef) true = Err e ->
    stepFails RemoteRefResolutionFailure
| history_fails headRef remoteRef n e :
    fetched -> r_Head r = Ok headRef ->
    r_Reference r (remoteNameOf headRef) true = Ok remoteRef ->
    fst (countRemoteChanges r headRef remoteRef) = (n, Some e) ->
    stepFails HistoryWalkFailure.

End Stages.

(** An entry the file system reports as a directory and not as a symbolic
    link: bit 31 of the mode set, bit 27 clear. *)
Definition isRealDir (mode : Z) : bool :=
  Z.testbit mode 31 && negb (Z.testbit mode 27).

(** The tree without the entries that are symbolic links or no
    directories, at every level. *)
Fixpoint withoutLinks (n : FsNode) : FsNode :=
  match n with
  | MkNode opened (Err e) => MkNode opened (Err e)
  | MkNode opened (Ok files) =>
      MkNode opened
        (Ok ((fix keep (files : list DirEnt) : list DirEnt :=
                match files with
                | [] => []
                | MkEnt name mode target :: rest =>
                    if isRealDir mode
                    then MkEnt name mode (withoutLinks target) :: keep rest
                    else keep rest
                end) files))
  end.

(** ** Sample worlds *)

Module Sample.

Definition status3 : Status :=
  {[ "main.go" := mkFileStatus Unmodified Modified "";
     "go.mod" := mkFileStatus Unmodified Unmodified "";
     "notes.txt" := mkFileStatus Untracked Untracked "" ]}.

Definition headRef : Reference := mkReference "refs/heads/main" 1%N.
Definition remoteRef : Reference := mkReference "refs/remotes/origin/main" 3%N.

(** The history [R3, R2, R1] of the remote branch, R1 the local HEAD. *)
Definition history : CommitIter :=
  {| iterCommits := [mkCommit 3%N; mkCommit 2%N; mkCommit 1%N];
     iterEnd := None |}.

(** A history on which the local HEAD does not lie. *)
Definition otherHistory : CommitIter :=
  {| iterCommits := [mkCommit 9%N; mkCommit 8%N]; iterEnd := None |}.

Definition env : Env :=
  {| os_Getenv := fun _ => "/run/agent.sock";
     net_Dial := fun _ _ => Ok {| agent_Signers := Ok ["id_ed25519"] |};
     NewSSHAgentAuth := fun user =>
       Ok {| authUser := user; insecureIgnoreHostKey := false |} |}.

(** An environment without [SSH_AUTH_SOCK]. *)
Definition noAgent : Env :=
  {| os_Getenv := fun _ => "";
     net_Dial := fun _ _ => Err (ErrOther "dial unix: missing address");
     NewSSHAgentAuth := fun _ => Err (ErrOther "error creating SSH agent") |}.

Definition repo (url : string) (log : CommitIter) : Repository :=
  {| r_Worktree := Ok {| w_Status := Ok status3 |};
     r_Remotes := Ok [mkRemote "upstream" ["https://example.org/up.git"];
                      mkRemote "origin" [url]];
     r_Fetch := fun _ => Some NoErrAlreadyUpToDate;
     r_Head := Ok headRef;
     r_Reference := fun name _ =>
       if bool_decide (name = "refs/remotes/origin/main") then Ok remoteRef
       else Err (ErrOther "reference not found");
     r_Log := fun from =>
       if N.eqb from 3%N then Ok log else Err (ErrOther "object not found");
     r_stopIsNil := false |}.

Definition github : Repository := repo "git@github.com:org/repo.git" history.
Definition alice : Repository := repo "alice@example.com:repo.git" history.

Definition dirMode : Z := Z.lor FileMode.ModeDir 493.
Definition linkMode : Z := Z.lor FileMode.ModeSymlink 511.
Definition fileMode : Z := 420.

Definition repoNode (r : Repository) (e : Env) : FsNode :=
  MkNode (Some (r, e))
    (Ok [MkEnt ".git" dirMode (MkNode None (Ok []))]).
Definition plainFile : FsNode :=
  MkNode None (Err (ErrOther "not a directory")).

(** root/{a/.git, b/c/.git, d, e -> a, README} *)
Definition root : FsNode :=
  MkNode None (Ok [
    MkEnt "README" fileMode plainFile;
    MkEnt "a" dirMode (repoNode github env);
    MkEnt "b" dirMode (MkNode None (Ok [MkEnt "c" dirMode (repoNode github env)]));
    MkEnt "d" dirMode (MkNode None (Ok []));
    MkEnt "e" linkMode (repoNode github env)]).

End Sample.

(** ** The report of [main] *)

(** How [fmt] prints an [int]: in decimal, with a minus sign when
    negative. *)
Definition showInt (n : Z) : string := NilZero.string_of_int (Z.to_int n).

(** The line feed that ends what a print call writes. *)
Definition newline : string := String (ascii_of_nat 10) EmptyString.

(** What the three print calls for one repository write, one element per
    call, each with its line feed:
    [fmt.Printf("In Folder [%s]: git present\n", repo.Path)],
    [fmt.Println("Local Changes:", repo.LocalChanges)],
    [fmt.Println("Remote Changes:", repo.RemoteChanges)]. *)
Definition reportOf (repo : repoStatus) : list string :=
  [ "In Folder [" +:+ Path repo +:+ "]: git present" +:+ newline;
    "Local Changes: " +:+ showInt (LocalChanges repo) +:+ newline;
    "Remote Changes: " +:+ showInt (RemoteChanges repo) +:+ newline ].

(** [for _, repo := range repos { ... }]: the writes, in order. *)
Fixpoint reportWrites (rs : list repoStatus) : list string :=
  match rs with
  | [] => []
  | repo :: rest => (reportOf repo ++ reportWrites rest)%list
  end.

(** The text on standard output after a sequence of writes. *)
Fixpoint stdoutText (writes : list string) : string :=
  match writes with
  | [] => EmptyString
  | w :: rest => w +:+ stdoutText rest
  end.

(** The number of line feeds of a text: the number of lines it ends. *)
Fixpoint countNewlines (s : string) : nat :=
  match s with
  | EmptyString => 0%nat
  | String c s' =>
      ((if Nat.eqb (nat_of_ascii c) 10 then 1 else 0) + countNewlines s')%nat
  end.

(** [main]: [depthFlag] is the value of [-depth] when the command line
    gives one (the flag's default is 4), [args] are the arguments left
    after the flags, [fs] gives the tree found at a path.  The result is
    the sequence of writes on standard output; a panic during the walk
    ends the process before anything is written. *)
Definition main `{GoLibs} (variant : Variant) (depthFlag : option Z)
    (args : list string) (fs : string -> FsNode) : option (list string) :=
  let maxDepth := match depthFlag with Some d => d | None => 4 end in
  let rootPath := match args with arg0 :: _ => arg0 | [] => "." end in
  match visitAndCheckGit variant maxDepth (fs rootPath) rootPath 0 emptyStore with
  | Returned st => Some (reportWrites (repos st))
  | Panicked _ => None
  end.

(** ** Further notions the properties are stated with *)

(** The commits of a history before the first one with hash [h]. *)
Fixpoint commitsBefore (h : Hash) (cs : list Commit) : list Commit :=
  match cs with
  | [] => []
  | c :: cs' => if N.eqb (commitHash c) h then [] else c :: commitsBefore h cs'
  end.

(** Whether a commit with hash [h] lies on a history. *)
Fixpoint onHistory (h : Hash) (cs : list Commit) : bool :=
  match cs with
  | [] => false
  | c :: cs' => N.eqb (commitHash c) h || onHistory h cs'
  end.

(** The repository [r] with the other treatment of the stop sentinel by the
    iterator. *)
Definition withStopIsNil (r : Repository) (stopIsNil : bool) : Repository :=
  {| r_Worktree := r_Worktree r;
     r_Remotes := r_Remotes r;
     r_Fetch := r_Fetch r;
     r_Head := r_Head r;
     r_Reference := r_Reference r;
     r_Log := r_Log r;
     r_stopIsNil := stopIsNil |}.

(** A store followed by what a walk added. *)
Definition extend (st added : Store) : Store :=
  {| repos := (repos st ++ repos added)%list;
     logged := (logged st ++ logged added)%list |}.

Definition runExtend (st : Store) (r : run) : run :=
  match r with
  | Returned added => Returned (extend st added)
  | Panicked added => Panicked (extend st added)
  end.

(** The records a visit makes, started with none. *)
Definition newRecords `{GoLibs} (v : Variant) (maxDepth : Z) (n : FsNode)
    (path : string) (depth : Z) : list repoStatus :=
  repos (storeOf (visitAndCheckGit v maxDepth n path depth emptyStore)).

(** No agent answers on the socket of [SSH_AUTH_SOCK]. *)
Definition agentDown (env : Env) : bool :=
  match net_Dial env "unix" (os_Getenv env "SSH_AUTH_SOCK") with
  | Err _ => true
  | Ok _ => false
  end.

(** A test on the environment holds at every repository of a tree. *)
Fixpoint everyEnv (test : Env -> bool) (n : FsNode) : bool :=
  let here :=
    match n with
    | MkNode (Some (_, env)) _ => test env
    | MkNode None _ => true
    end in
  match n with
  | MkNode _ (Err _) => here
  | MkNode _ (Ok files) =>
      here
      && (fix every (files : list DirEnt) : bool :=
            match files with
            | [] => true
            | MkEnt _ _ target :: rest => everyEnv test target && every rest
            end) files
  end.

(** The tree with nothing listed below the paths that open as a
    repository. *)
Fixpoint withoutNested (n : FsNode) : FsNode :=
  match n with
  | MkNode (Some opened) _ => MkNode (Some opened) (Ok [])
  | MkNode None (Err e) => MkNode None (Err e)
  | MkNode None (Ok files) =>
      MkNode None
        (Ok ((fix below (files : list DirEnt) : list DirEnt :=
                match files with
                | [] => []
                | MkEnt name mode target :: rest =>
                    MkEnt name mode (withoutNested target) :: below rest
                end) files))
  end.

(** The paths a log shows as visited, with their depths, in order. *)
Fixpoint visited (log : list LogLine) : list (string * Z) :=
  match log with
  | [] => []
  | Visiting path depth :: rest => (path, depth) :: visited rest
  | _ :: rest => visited rest
  end.

(** Whether a call of the walker returned. *)
Definition returned (r : run) : bool :=
  match r with
  | Returned _ => true
  | Panicked _ => false
  end.

(** One state of the file system as [os.ReadDir] reports it (the first
    tree) and as [ioutil.ReadDir] reports it (the second), with the two
    calls agreeing: a path opens as the same repository in both; where it
    opens as none, the two listings both fail, with whatever errors, or
    both give entries of the same names in the same order with the same
    type bits, and the trees at the directories among them agree in the
    same way. *)
Inductive listingsAgree : FsNode -> FsNode -> Prop :=
| agree_repository opened listing1 listing2 :
    listingsAgree (MkNode (Some opened) listing1) (MkNode (Some opened) listing2)
| agree_failed e1 e2 :
    listingsAgree (MkNode None (Err e1)) (MkNode None (Err e2))
| agree_listed files1 files2 :
    Forall2 (fun f1 f2 =>
               entName f1 = entName f2
               /\ FileMode.Type_ (entMode f1) = FileMode.Type_ (entMode f2)
               /\ (isRealDir (entMode f1) = true ->
                   listingsAgree (entTarget f1) (entTarget f2)))
            files1 files2 ->
    listingsAgree (MkNode None (Ok files1)) (MkNode None (Ok files2)).

(** Two calls of the walker show the same: both return or both panic, with
    the same records and the same visits in the same order. *)
Definition alike (r1 r2 : run) : Prop :=
  returned r1 = returned r2
  /\ repos (storeOf r1) = repos (storeOf r2)
  /\ visited (logged (storeOf r1)) = visited (logged (storeOf r2)).

(** Every visit a store has logged was at a depth within the bound. *)
Definition visitsWithin (maxDepth : Z) (st : Store) : Prop :=
  forall p d, In (Visiting p d) (logged st) -> d <= maxDepth.

(** Every record of a store has its path among the paths logged as
    checked. *)
Definition recordsChecked (st : Store) : Prop :=
  forall rec, In rec (repos st) -> In (Checking (Path rec)) (logged st).

(** The entries of a listing the walker descends into. *)
Definition entered (files : list DirEnt) : list DirEnt :=
  filter (fun f => isRealDir (entMode f) = true) files.

Module MoreSamples.

(** A history whose traversal breaks off after two commits. *)
Definition brokenHistory : CommitIter :=
  {| iterCommits := [mkCommit 3%N; mkCommit 2%N];
     iterEnd := Some (ErrOther "object not found") |}.

(** root/{a/.git, b/c/.git} with no agent to reach. *)
Definition offline : FsNode :=
  MkNode None (Ok [
    MkEnt "a" Sample.dirMode (Sample.repoNode Sample.github Sample.noAgent);
    MkEnt "b" Sample.dirMode
      (MkNode None (Ok [MkEnt "c" Sample.dirMode
                          (Sample.repoNode Sample.alice Sample.noAgent)]))]).

(** A repository with another repository in a subdirectory. *)
Definition nested : FsNode :=
  MkNode (Some (Sample.github, Sample.env))
    (Ok [MkEnt ".git" Sample.dirMode (MkNode None (Ok []));
         MkEnt "vendor" Sample.dirMode (Sample.repoNode Sample.github Sample.env)]).

(** An agent that makes no handle for an empty user name. *)
Definition strictEnv : Env :=
  {| os_Getenv := os_Getenv Sample.env;
     net_Dial := net_Dial Sample.env;
     NewSSHAgentAuth := fun user =>
       if bool_decide (user = "") then Err (ErrOther "no user name")
       else NewSSHAgentAuth Sample.env user |}.

(** A remote that answers the fetch from origin with unchecked host keys
    and refuses every other. *)
Definition originOnly (opts : FetchOptions) : option error :=
  if bool_decide (RemoteName opts = "origin")
     && insecureIgnoreHostKey (FetchAuth opts)
  then None else Some (ErrOther "unknown host key").

(** The sample tree as [os.ReadDir] reports it: an entry carries its type
    bits and no permission bits. *)
Definition rootAsDirEntries : FsNode :=
  MkNode None (Ok [
    MkEnt "README" 0 Sample.plainFile;
    MkEnt "a" FileMode.ModeDir (Sample.repoNode Sample.github Sample.env);
    MkEnt "b" FileMode.ModeDir
      (MkNode None (Ok [MkEnt "c" FileMode.ModeDir
                          (Sample.repoNode Sample.github Sample.env)]));
    MkEnt "d" FileMode.ModeDir (MkNode None (Ok []));
    MkEnt "e" FileMode.ModeSymlink (Sample.repoNode Sample.github Sample.env)]).

(** A directory root that may be read but not searched (mode r--), with a
    subdirectory sub.  [os.ReadDir] lists it from the directory entries;
    below it nothing can be opened. *)
Definition unsearchableAsOsReadDir : FsNode :=
  MkNode None (Ok [
    MkEnt "sub" FileMode.ModeDir
      (MkNode None (Err (ErrOther "open root/sub: permission denied")))]).

(** The same directory as [ioutil.ReadDir] reports it: [lstat] on the
    entry fails, and so does the call. *)
Definition unsearchableAsIoutilReadDir : FsNode :=
  MkNode None (Err (ErrOther "lstat root/sub: permission denied")).

End MoreSamples.

(** * Properties *)

(** ** Arithmetic on [int] *)

Lemma GoInt_wrap_small z :
  GoInt.min_int <= z <= GoInt.max_int -> GoInt.wrap z = z.
Proof.
  unfold GoInt.wrap, GoInt.min_int, GoInt.max_int. intros Hz.
  rewrite Z.mod_small by lia. lia.
Qed.

Lemma GoInt_incr_small n :
  0 <= n < GoInt.max_int -> GoInt.incr n = n + 1.
Proof.
  unfold GoInt.incr. intros Hn. apply GoInt_wrap_small.
  unfold GoInt.min_int, GoInt.max_int in *. lia.
Qed.

(** ** Change Counter *)

(** The loop adds one to the counter per changed entry, as long as the
    counter cannot leave the range of [int]. *)
Lemma countChanges_range_spec (order : list (string * FileStatus)) (changes : Z) :
  0 <= changes ->
  changes + Z.of_nat (length order) <= GoInt.max_int ->
  countChanges_range order changes
  = changes + Z.of_nat (length (filter isChange order)).
Proof.
  revert changes.
  induction order as [|[path s] rest IH]; intros changes Hpos Hfit; simpl.
  - lia.
  - rewrite length_cons in Hfit.
    rewrite filter_cons.
    destruct (decide (isChange (path, s))) as [Hs|Hs];
      unfold isChange in Hs; simpl in Hs.
    + rewrite Hs, GoInt_incr_small by lia.
      rewrite IH by lia. rewrite length_cons. lia.
    + apply not_true_is_false in Hs. rewrite Hs.
      rewrite IH by lia. reflexivity.
Qed.

(** The number of changed entries of a snapshot, read off any listing of
    its entries. *)
Lemma changedEntries_size (status : Status) (order : list (string * FileStatus)) :
  order ≡ₚ map_to_list status ->
  length (filter isChange order) = size (changedEntries status).
Proof.
  intros Hperm. rewrite Hperm.
  unfold changedEntries.
  rewrite <- length_map_to_list.
  rewrite (map_filter_alt isChange status).
  rewrite map_to_list_to_map; [reflexivity|].
  eapply NoDup_fmap_fst; [|apply NoDup_filter, NoDup_map_to_list].
  intros k x1 x2 [_ H1]%list_elem_of_filter [_ H2]%list_elem_of_filter.
  apply elem_of_map_to_list in H1, H2. congruence.
Qed.

(** C1. For every status snapshot the Change Counter returns the number of
    entries whose staged state or worktree state is not "unmodified",
    whatever order the map iteration runs in ([order] is any listing of the
    entries of the map); on the empty snapshot it returns 0.  The size of a
    Go map is an [int], which is the bound on [size status]. *)
Theorem countChanges_counts_changed_entries
    (status : Status) (order : list (string * FileStatus)) :
  order ≡ₚ map_to_list status ->
  Z.of_nat (size status) <= GoInt.max_int ->
  countChanges_range order 0 = Z.of_nat (size (changedEntries status))
  /\ countChanges status = Z.of_nat (size (changedEntries status))
  /\ countChanges (∅ : Status) = 0.
Proof.
  intros Hperm Hfit.
  assert (Hlen : length order = size status).
  { rewrite Hperm. apply length_map_to_list. }
  split; [|split].
  - rewrite countChanges_range_spec by lia.
    rewrite (changedEntries_size status order Hperm). lia.
  - unfold countChanges.
    rewrite countChanges_range_spec; rewrite ?length_map_to_list; try lia.
    rewrite (changedEntries_size status (map_to_list status)) by reflexivity.
    lia.
  - reflexivity.
Qed.

(** C1 at a snapshot with one unmodified and two changed files. *)
Lemma countChanges_counts_changed_entries_witness :
  map_to_list Sample.status3 ≡ₚ map_to_list Sample.status3
  /\ Z.of_nat (size Sample.status3) <= GoInt.max_int
  /\ countChanges Sample.status3 = 2.
Proof.
  split; [reflexivity|]. split; [vm_compute; discriminate|].
  destruct (countChanges_counts_changed_entries Sample.status3
              (map_to_list Sample.status3)) as (_ & Hcount & _).
  - reflexivity.
  - vm_compute; discriminate.
  - rewrite Hcount. vm_compute. reflexivity.
Defined.

(** ** Remote Divergence Counter *)

(** The loop over commits none of which is the local HEAD runs to the end
    of the iterator and counts every commit. *)
Lemma ForEach_counts_all stopIsNil headRef cs fin (acc : Z) :
  Forall (notHead headRef) cs ->
  0 <= acc ->
  acc + Z.of_nat (length cs) <= GoInt.max_int ->
  ForEach stopIsNil cs fin (countCallback headRef) acc
  = (fin, acc + Z.of_nat (length cs), S (length cs)).
Proof.
  intros Hnot. revert acc.
  induction Hnot as [|c cs Hc _ IH]; intros acc Hpos Hfit; simpl.
  - rewrite Z.add_0_r. reflexivity.
  - rewrite length_cons in Hfit. unfold countCallback at 1.
    apply N.eqb_neq in Hc. rewrite Hc.
    rewrite GoInt_incr_small by lia.
    rewrite IH by lia.
    replace (acc + 1 + Z.of_nat (length cs))
      with (acc + Z.of_nat (S (length cs))) by lia.
    reflexivity.
Qed.

(** The loop stops at the first commit that is the local HEAD, with the
    commits before it counted. *)
Lemma ForEach_stops_at_head stopIsNil headRef pre c post fin (acc : Z) :
  Forall (notHead headRef) pre ->
  commitHash c = refHash headRef ->
  0 <= acc ->
  acc + Z.of_nat (length pre) <= GoInt.max_int ->
  ForEach stopIsNil (pre ++ c :: post) fin (countCallback headRef) acc
  = (if stopIsNil then None else Some ErrStop,
     acc + Z.of_nat (length pre), S (length pre)).
Proof.
  intros Hnot Hc. revert acc.
  induction Hnot as [|x pre Hx _ IH]; intros acc Hpos Hfit; simpl.
  - unfold countCallback. apply N.eqb_eq in Hc. rewrite Hc.
    rewrite Z.add_0_r. destruct stopIsNil; reflexivity.
  - rewrite length_cons in Hfit. unfold countCallback at 1.
    apply N.eqb_neq in Hx. rewrite Hx.
    rewrite GoInt_incr_small by lia.
    rewrite IH by lia.
    replace (acc + 1 + Z.of_nat (length pre))
      with (acc + Z.of_nat (S (length pre))) by lia.
    reflexivity.
Qed.

(** C2. With distinct hashes and the local HEAD on the history started from
    the remote reference, the counter returns, without error, the number of
    commits the iterator produces before the first one whose hash is the
    local HEAD's; that commit is not counted.  [pre] is the part of the
    history before that commit. *)
Theorem countRemoteChanges_counts_before_head
    (r : Repository) (headRef remoteRef : Reference) (cIter : CommitIter)
    (pre post : list Commit) (c : Commit) :
  refHash headRef <> refHash remoteRef ->
  r_Log r (refHash remoteRef) = Ok cIter ->
  iterCommits cIter = (pre ++ c :: post)%list ->
  Forall (notHead headRef) pre ->
  commitHash c = refHash headRef ->
  Z.of_nat (length pre) <= GoInt.max_int ->
  countRemoteChanges r headRef remoteRef
  = ((Z.of_nat (length pre), None),
     CallLog (refHash remoteRef) :: replicate (S (length pre)) CallNext).
Proof.
  intros Hne Hlog Hcs Hpre Hc Hfit.
  unfold countRemoteChanges.
  apply N.eqb_neq in Hne. rewrite Hne, Hlog, Hcs.
  rewrite (ForEach_stops_at_head _ headRef pre c post) by (done || lia).
  destruct (r_stopIsNil r); reflexivity.
Qed.

(** C2 on the history [R3, R2, R1] with R1 the local HEAD: the result is 2. *)
Lemma countRemoteChanges_counts_before_head_witness :
  fst (countRemoteChanges Sample.github Sample.headRef Sample.remoteRef)
  = (2, None).
Proof.
  rewrite (countRemoteChanges_counts_before_head
             Sample.github Sample.headRef Sample.remoteRef Sample.history
             [mkCommit 3%N; mkCommit 2%N] [] (mkCommit 1%N)).
  - reflexivity.
  - vm_compute; discriminate.
  - reflexivity.
  - reflexivity.
  - repeat constructor; vm_compute; discriminate.
  - reflexivity.
  - vm_compute; discriminate.
Defined.

(** C3. On references with equal hashes the counter returns 0 without error
    and makes no call on the history: [r.Log] is not called, no commit is
    requested. *)
Theorem countRemoteChanges_equal_hashes
    (r : Repository) (headRef remoteRef : Reference) :
  refHash headRef = refHash remoteRef ->
  countRemoteChanges r headRef remoteRef = ((0, None), []).
Proof.
  intros Heq. unfold countRemoteChanges.
  apply N.eqb_eq in Heq. rewrite Heq. reflexivity.
Qed.

Lemma countRemoteChanges_equal_hashes_witness :
  countRemoteChanges Sample.github Sample.headRef
    (mkReference "refs/remotes/origin/main" 1%N) = ((0, None), []).
Proof.
  apply (countRemoteChanges_equal_hashes Sample.github Sample.headRef
           (mkReference "refs/remotes/origin/main" 1%N)).
  reflexivity.
Defined.

(** C4. With distinct hashes and an iterator that ends without having
    produced the local HEAD, the counter returns, without error, the length
    of the whole history it walked. *)
Theorem countRemoteChanges_head_not_reached
    (r : Repository) (headRef remoteRef : Reference) (cIter : CommitIter) :
  refHash headRef <> refHash remoteRef ->
  r_Log r (refHash remoteRef) = Ok cIter ->
  iterEnd cIter = None ->
  Forall (notHead headRef) (iterCommits cIter) ->
  Z.of_nat (length (iterCommits cIter)) <= GoInt.max_int ->
  countRemoteChanges r headRef remoteRef
  = ((Z.of_nat (length (iterCommits cIter)), None),
     CallLog (refHash remoteRef)
       :: replicate (S (length (iterCommits cIter))) CallNext).
Proof.
  intros Hne Hlog Hend Hnot Hfit.
  unfold countRemoteChanges.
  apply N.eqb_neq in Hne. rewrite Hne, Hlog.
  rewrite (ForEach_counts_all _ headRef) by (done || lia).
  rewrite Hend. reflexivity.
Qed.

Lemma countRemoteChanges_head_not_reached_witness :
  fst (countRemoteChanges (Sample.repo "git@github.com:org/repo.git" Sample.otherHistory)
         Sample.headRef Sample.remoteRef) = (2, None).
Proof.
  rewrite (countRemoteChanges_head_not_reached
             (Sample.repo "git@github.com:org/repo.git" Sample.otherHistory)
             Sample.headRef Sample.remoteRef Sample.otherHistory).
  - reflexivity.
  - vm_compute; discriminate.
  - reflexivity.
  - reflexivity.
  - repeat constructor; vm_compute; discriminate.
  - vm_compute; discriminate.
Defined.

(** ** The user name of the fetch *)

Section Username.

Context `{GoLibs}.

Lemma usernameLoop_no_origin (remotes : list Remote) (username : string) :
  Forall notOrigin remotes -> usernameLoop remotes username = Next username.
Proof.
  induction 1 as [|remote rest Hremote _ IH]; simpl; [reflexivity|].
  unfold usernameOfRemote. rewrite bool_decide_eq_false_2 by exact Hremote.
  simpl. exact IH.
Qed.

(** The loop over remotes among which exactly one is named origin comes
    down to the body on that remote. *)
Lemma usernameLoop_one_origin (before after : list Remote) (origin : Remote) :
  Forall notOrigin before -> Forall notOrigin after ->
  usernameLoop (before ++ origin :: after) "" = usernameOfRemote origin "".
Proof.
  intros Hbefore Hafter.
  induction Hbefore as [|remote rest Hremote _ IH]; simpl.
  - destruct (usernameOfRemote origin "") as [username| |]; simpl;
      [apply usernameLoop_no_origin, Hafter | reflexivity | reflexivity].
  - unfold usernameOfRemote at 1.
    rewrite bool_decide_eq_false_2 by exact Hremote. simpl. exact IH.
Qed.

Lemma HasPrefix_git_at (url : string) :
  strings_HasPrefix url "git@" = true <-> exists rest, url = "git@" +:+ rest.
Proof.
  split.
  - destruct url as [|c1 [|c2 [|c3 [|c4 rest]]]]; simpl;
      rewrite ?andb_false_r; try discriminate.
    intros Hprefix.
    repeat (apply andb_prop in Hprefix; destruct Hprefix as [?%bool_decide_eq_true Hprefix]).
    subst. exists rest. reflexivity.
  - intros [rest ->]. vm_compute. reflexivity.
Qed.

(** Splitting a URL that begins with [git@] at the at-signs leaves [git]
    in front. *)
Lemma Split_git_at (rest : string) :
  exists pieces, strings_Split ("git@" +:+ rest) "@"%char = "git" :: pieces
                 /\ pieces <> [].
Proof.
  assert (Hne : strings_Split rest "@"%char <> []).
  { destruct rest as [|c rest]; simpl; [discriminate|].
    case_bool_decide; [discriminate|].
    destruct (strings_Split rest "@"%char); discriminate. }
  exists (strings_Split rest "@"%char). split; [|exact Hne].
  change ("git@" +:+ rest) with (String "g" (String "i" (String "t" (String "@" rest)))).
  cbn [strings_Split].
  rewrite (bool_decide_eq_true_2 ("@"%char = "@"%char)) by reflexivity.
  rewrite !bool_decide_eq_false_2 by discriminate.
  reflexivity.
Qed.

Lemma usernameOfRemote_git_at (name url : string) (urls : list string)
    (username : string) :
  name = "origin" ->
  strings_HasPrefix url "git@" = true ->
  usernameOfRemote (mkRemote name (url :: urls)) username = Next "git".
Proof.
  intros -> Hprefix. unfold usernameOfRemote.
  rewrite bool_decide_eq_true_2 by reflexivity.
  cbn [remoteURLs]. rewrite Hprefix.
  apply HasPrefix_git_at in Hprefix as [rest ->].
  destruct (Split_git_at rest) as (pieces & -> & Hpieces).
  destruct pieces as [|piece pieces]; [done|].
  rewrite !length_cons.
  destruct (Z.ltb_spec 1 (Z.of_nat (S (S (length pieces))))); [reflexivity|lia].
Qed.

(** C5, as the code has it.  With exactly one remote named origin:
    when its first URL begins with the literal [git@], the user name is
    what stands before the first at-sign, [git]; every other URL goes to
    the URL parser, whose failure gives the visit up and whose user-info
    name is the user name, [git] standing in for an empty one.  Without
    a remote named origin the user name is [git]. *)
Theorem deriveUsername_of_origin
    (before after : list Remote) (url : string) (urls : list string) :
  Forall notOrigin before ->
  Forall notOrigin after ->
  (strings_HasPrefix url "git@" = true ->
     (exists rest, url = "git@" +:+ rest)
     /\ deriveUsername (before ++ mkRemote "origin" (url :: urls) :: after)
        = Next "git")
  /\ (strings_HasPrefix url "git@" = false ->
        deriveUsername (before ++ mkRemote "origin" (url :: urls) :: after)
        = match url_Parse url with
          | Err e => Abandon URLParseFailure (Some e)
          | Ok u =>
              Next (if bool_decide (Username (User u) = "") then "git"
                    else Username (User u))
          end)
  /\ deriveUsername (before ++ after) = Next "git".
Proof.
  intros Hbefore Hafter. split; [|split].
  - intros Hprefix. split; [apply HasPrefix_git_at, Hprefix|].
    unfold deriveUsername.
    rewrite usernameLoop_one_origin by assumption.
    rewrite usernameOfRemote_git_at by done. reflexivity.
  - intros Hprefix. unfold deriveUsername.
    rewrite usernameLoop_one_origin by assumption.
    unfold usernameOfRemote.
    rewrite bool_decide_eq_true_2 by reflexivity.
    cbn [remoteURLs]. rewrite Hprefix.
    destruct (url_Parse url); reflexivity.
  - unfold deriveUsername.
    rewrite usernameLoop_no_origin; [reflexivity|].
    apply Forall_app; split; assumption.
Qed.

End Username.

(** C5 at [git@github.com:org/repo.git] and at
    [ssh://alice@example.com/repo.git], each beside a second remote. *)
Lemma deriveUsername_of_origin_witness :
  deriveUsername (H := Plain.libs)
    [mkRemote "upstream" ["https://example.org/up.git"];
     mkRemote "origin" ["git@github.com:org/repo.git"]] = Next "git"
  /\ deriveUsername (H := Plain.libs)
    [mkRemote "upstream" ["https://example.org/up.git"];
     mkRemote "origin" ["ssh://alice@example.com/repo.git"]] = Next "alice".
Proof.
  split.
  - destruct (deriveUsername_of_origin (H := Plain.libs)
                [mkRemote "upstream" ["https://example.org/up.git"]] []
                "git@github.com:org/repo.git" []) as (Hgit & _ & _).
    + repeat constructor. vm_compute; discriminate.
    + constructor.
    + destruct Hgit as [_ Hgit]; [reflexivity|]. exact Hgit.
  - destruct (deriveUsername_of_origin (H := Plain.libs)
                [mkRemote "upstream" ["https://example.org/up.git"]] []
                "ssh://alice@example.com/repo.git" []) as (_ & Hparse & _).
    + repeat constructor. vm_compute; discriminate.
    + constructor.
    + exact (Hparse eq_refl).
Defined.

(** The claim of C5 on a URL of the form user@host:path with another user
    than [git]: the URL does not begin with [git@], the URL parser refuses
    it (its first path segment holds a colon), and the visit is given up;
    the user name [alice] is not derived. *)
Lemma deriveUsername_scp_like_other_user :
  deriveUsername (H := Plain.libs)
    [mkRemote "origin" ["alice@example.com:repo.git"]]
  = Abandon URLParseFailure
      (Some (ErrOther "first path segment in URL cannot contain colon"))
  /\ deriveUsername (H := Plain.libs)
       [mkRemote "origin" ["alice@example.com:repo.git"]] <> Next "alice".
Proof.
  split; [reflexivity|]. vm_compute. discriminate.
Qed.

(** ** The test on directory entries *)

(** Masking with a single bit leaves that bit or nothing. *)
Lemma land_bit (m k : Z) :
  0 <= k ->
  Z.land m (Z.shiftl 1 k) = if Z.testbit m k then Z.shiftl 1 k else 0.
Proof.
  intros Hk. rewrite Z.shiftl_1_l.
  apply Z.bits_inj'. intros i Hi.
  rewrite Z.land_spec, Z.pow2_bits_eqb by exact Hk.
  destruct (Z.eqb_spec k i) as [->|Hne].
  - destruct (Z.testbit m i); simpl.
    + rewrite Z.pow2_bits_true by exact Hi. reflexivity.
    + symmetry. apply Z.bits_0.
  - rewrite andb_false_r.
    destruct (Z.testbit m k).
    + rewrite Z.pow2_bits_false by exact Hne. reflexivity.
    + symmetry. apply Z.bits_0.
Qed.

(** The type bits of a mode keep the directory bit and the link bit. *)
Lemma Type_keeps_bit (mode : Z) (k : Z) :
  Z.testbit FileMode.ModeType k = true ->
  Z.testbit (FileMode.Type_ mode) k = Z.testbit mode k.
Proof.
  intros Hk. unfold FileMode.Type_.
  rewrite Z.land_spec, Hk. apply andb_true_r.
Qed.

Lemma IsDir_testbit (mode : Z) : FileMode.IsDir mode = Z.testbit mode 31.
Proof.
  unfold FileMode.IsDir, FileMode.ModeDir.
  rewrite land_bit by lia.
  destruct (Z.testbit mode 31); reflexivity.
Qed.

Lemma symlink_test_testbit (mode : Z) :
  negb (Z.eqb (Z.land mode FileMode.ModeSymlink) FileMode.ModeSymlink)
  = negb (Z.testbit mode 27).
Proof.
  unfold FileMode.ModeSymlink.
  rewrite land_bit by lia.
  destruct (Z.testbit mode 27); reflexivity.
Qed.

(** Both variants descend exactly into the entries that are directories
    and no symbolic links. *)
Lemma descends_isRealDir (v : Variant) (mode : Z) :
  descends v mode = isRealDir mode.
Proof.
  unfold descends, isRealDir. destruct v.
  - rewrite IsDir_testbit, symlink_test_testbit.
    rewrite !Type_keeps_bit by reflexivity. reflexivity.
  - rewrite IsDir_testbit, symlink_test_testbit. reflexivity.
Qed.

(** ** The walk *)

(** Induction over a directory tree: a property holds of every tree when it
    holds of a tree whose entries' trees have it. *)
Lemma FsNode_tree_ind (P : FsNode -> Prop) :
  (forall opened e, P (MkNode opened (Err e))) ->
  (forall opened files,
      Forall (fun f => P (entTarget f)) files -> P (MkNode opened (Ok files))) ->
  forall n, P n.
Proof.
  intros Herr Hok. fix IH 1. intros [opened [e|files]].
  - apply Herr.
  - apply Hok. induction files as [|[name mode target] rest IHrest].
    + constructor.
    + constructor; [apply IH | exact IHrest].
Qed.

Section WalkFacts.

Context `{GoLibs}.

(** Past the depth bound a visit does nothing. *)
Lemma visit_beyond_depth (v : Variant) (maxDepth : Z) (n : FsNode)
    (path : string) (depth : Z) (st : Store) :
  depth > maxDepth -> visitAndCheckGit v maxDepth n path depth st = Returned st.
Proof.
  intros Hdepth. destruct n as [opened listing]; simpl.
  destruct (Z.gtb_spec depth maxDepth); [reflexivity|lia].
Qed.

(** A loop all of whose visits do nothing does nothing. *)
Lemma rangeFiles_idle (v : Variant)
    (visit : FsNode -> string -> Z -> Store -> run)
    (path : string) (depth : Z) (files : list DirEnt) (st : Store) :
  (forall n p s, visit n p (GoInt.incr depth) s = Returned s) ->
  rangeFiles v visit path depth files st = Returned st.
Proof.
  intros Hidle.
  induction files as [|[name mode target] rest IH]; simpl; [reflexivity|].
  destruct (descends v mode); [|exact IH].
  rewrite Hidle. exact IH.
Qed.

(** C8. A visit at a depth above the maximum returns at once: nothing is
    logged, nothing recorded, no entry visited.  With maximum depth 0 and
    a root that does not open as a repository, the walk returns with no
    Result Record, whatever lies below the root. *)
Theorem depth_bound_cuts_the_walk (v : Variant) (maxDepth : Z) (n : FsNode)
    (path : string) (depth : Z) (st : Store) :
  (depth > maxDepth ->
     visitAndCheckGit v maxDepth n path depth st = Returned st)
  /\ (forall listing rootPath,
        exists st', mainWalk v 0 (MkNode None listing) rootPath = Returned st'
                    /\ repos st' = []).
Proof.
  split; [apply visit_beyond_depth|].
  intros listing rootPath. unfold mainWalk. simpl.
  destruct listing as [e|files].
  - eexists. split; reflexivity.
  - rewrite rangeFiles_idle.
    + eexists. split; reflexivity.
    + intros n' p s. apply visit_beyond_depth. vm_compute. reflexivity.
Qed.

(** The walk of a tree is the walk of the tree without its links and
    non-directories. *)
Lemma visit_withoutLinks (v : Variant) (maxDepth : Z) (n : FsNode) :
  forall path depth st,
    visitAndCheckGit v maxDepth (withoutLinks n) path depth st
    = visitAndCheckGit v maxDepth n path depth st.
Proof.
  induction n as [opened e|opened files IH] using FsNode_tree_ind;
    intros path depth st.
  - reflexivity.
  - simpl. destruct (Z.gtb depth maxDepth); [reflexivity|].
    destruct opened as [[r env]|]; [reflexivity|].
    generalize (say (Visiting path depth) st). clear st.
    induction IH as [|[name mode target] rest Htarget _ IHrest]; intros st;
      simpl; [reflexivity|].
    rewrite descends_isRealDir. destruct (isRealDir mode) eqn:Hmode; simpl.
    + rewrite descends_isRealDir, Hmode. simpl in Htarget. rewrite Htarget.
      destruct (visitAndCheckGit v maxDepth target _ _ st);
        [apply IHrest | reflexivity].
    + apply IHrest.
Qed.

Lemma visited_app (l1 l2 : list LogLine) :
  visited (l1 ++ l2) = (visited l1 ++ visited l2)%list.
Proof.
  induction l1 as [|[p d|p|f p e] l1 IH]; cbn [visited app]; [reflexivity| |exact IH..].
  rewrite IH. reflexivity.
Qed.

(** Modes with the same type bits pass the entry test alike. *)
Lemma isRealDir_type_bits (mode1 mode2 : Z) :
  FileMode.Type_ mode1 = FileMode.Type_ mode2 ->
  isRealDir mode1 = isRealDir mode2.
Proof.
  intros Htype. unfold isRealDir.
  rewrite <- (Type_keeps_bit mode1 31), <- (Type_keeps_bit mode1 27) by reflexivity.
  rewrite <- (Type_keeps_bit mode2 31), <- (Type_keeps_bit mode2 27) by reflexivity.
  rewrite Htype. reflexivity.
Qed.

Lemma alike_say (l : LogLine) (s1 s2 : Store) :
  alike (Returned s1) (Returned s2) ->
  alike (Returned (say l s1)) (Returned (say l s2)).
Proof.
  unfold alike, say. cbn [storeOf returned repos logged].
  intros (_ & Hrepos & Hvisited).
  rewrite !visited_app, Hrepos, Hvisited. auto.
Qed.

(** A log line that is no visit can stand on one side only. *)
Lemma alike_say_failed (f1 f2 : Failure) (p1 p2 : string)
    (e1 e2 : option error) (s1 s2 : Store) :
  alike (Returned s1) (Returned s2) ->
  alike (Returned (say (Failed f1 p1 e1) s1)) (Returned (say (Failed f2 p2 e2) s2)).
Proof.
  unfold alike, say. cbn [storeOf returned repos logged].
  intros (_ & Hrepos & Hvisited).
  rewrite !visited_app, Hrepos, Hvisited. auto.
Qed.

Lemma alike_record (rec : repoStatus) (s1 s2 : Store) :
  alike (Returned s1) (Returned s2) ->
  alike (Returned (record rec s1)) (Returned (record rec s2)).
Proof.
  unfold alike, record. cbn [storeOf returned repos logged].
  intros (_ & Hrepos & Hvisited). rewrite Hrepos, Hvisited. auto.
Qed.

Lemma alike_panicked (s1 s2 : Store) :
  alike (Returned s1) (Returned s2) -> alike (Panicked s1) (Panicked s2).
Proof. unfold alike. cbn [storeOf returned]. intros (_ & Hrepos & Hvisited). auto. Qed.

(** The loops of the two variants over listings that agree. *)
Lemma rangeFiles_views_alike (maxDepth : Z) (path : string) (depth : Z)
    (files1 files2 : list DirEnt) :
  Forall2 (fun f1 f2 =>
             entName f1 = entName f2
             /\ FileMode.Type_ (entMode f1) = FileMode.Type_ (entMode f2)
             /\ (isRealDir (entMode f1) = true ->
                 listingsAgree (entTarget f1) (entTarget f2)))
          files1 files2 ->
  Forall (fun f1 => forall n2,
            listingsAgree (entTarget f1) n2 ->
            forall p d s1 s2,
              alike (Returned s1) (Returned s2) ->
              alike (visitAndCheckGit OsReadDir maxDepth (entTarget f1) p d s1)
                    (visitAndCheckGit IoutilReadDir maxDepth n2 p d s2)) files1 ->
  forall s1 s2,
    alike (Returned s1) (Returned s2) ->
    alike (rangeFiles OsReadDir (visitAndCheckGit OsReadDir maxDepth)
             path depth files1 s1)
          (rangeFiles IoutilReadDir (visitAndCheckGit IoutilReadDir maxDepth)
             path depth files2 s2).
Proof.
  induction 1 as [|[name1 mode1 t1] [name2 mode2 t2] rest1 rest2 Hentry _ IH];
    intros Hvisits s1 s2 Hstores; cbn [rangeFiles]; [exact Hstores|].
  apply Forall_cons in Hvisits as [Hvisit Hvisits].
  cbn [entName entMode entTarget] in Hentry, Hvisit.
  destruct Hentry as (<- & Htype & Htargets).
  rewrite !descends_isRealDir, <- (isRealDir_type_bits mode1 mode2 Htype).
  destruct (isRealDir mode1); [|apply IH; assumption].
  specialize (Hvisit t2 (Htargets eq_refl) (filepath_Join path name1)
                (GoInt.incr depth) s1 s2 Hstores).
  destruct (visitAndCheckGit OsReadDir maxDepth t1 _ _ s1) as [s1'|s1'],
           (visitAndCheckGit IoutilReadDir maxDepth t2 _ _ s2) as [s2'|s2'].
  - apply IH; assumption.
  - destruct Hvisit as [Hreturned _]. discriminate.
  - destruct Hvisit as [Hreturned _]. discriminate.
  - exact Hvisit.
Qed.

(** The walks of the two variants over the two views of a state on which
    the listing calls agree. *)
Lemma views_walk_alike (maxDepth : Z) (n1 : FsNode) :
  forall n2,
    listingsAgree n1 n2 ->
    forall path depth s1 s2,
      alike (Returned s1) (Returned s2) ->
      alike (visitAndCheckGit OsReadDir maxDepth n1 path depth s1)
            (visitAndCheckGit IoutilReadDir maxDepth n2 path depth s2).
Proof.
  assert (Hrepo : forall opened listing1 listing2 path depth s1 s2,
             alike (Returned s1) (Returned s2) ->
             alike (visitAndCheckGit OsReadDir maxDepth
                      (MkNode (Some opened) listing1) path depth s1)
                   (visitAndCheckGit IoutilReadDir maxDepth
                      (MkNode (Some opened) listing2) path depth s2)).
  { intros [r env] listing1 listing2 path depth s1 s2 Hstores.
    cbn [visitAndCheckGit]. destruct (Z.gtb depth maxDepth); [exact Hstores|].
    destruct (checkRepository r env path).
    - apply alike_record. do 2 apply alike_say. exact Hstores.
    - do 3 apply alike_say. exact Hstores.
    - apply alike_panicked. do 2 apply alike_say. exact Hstores. }
  induction n1 as [opened e|opened files IH] using FsNode_tree_ind;
    intros n2 Hagree path depth s1 s2 Hstores; inversion Hagree; subst.
  - apply Hrepo, Hstores.
  - cbn [visitAndCheckGit]. destruct (Z.gtb depth maxDepth); [exact Hstores|].
    apply alike_say_failed, alike_say, Hstores.
  - apply Hrepo, Hstores.
  - cbn [visitAndCheckGit]. destruct (Z.gtb depth maxDepth); [exact Hstores|].
    apply rangeFiles_views_alike; [assumption|exact IH|].
    apply alike_say, Hstores.
Qed.

End WalkFacts.

(** ** The visit of a repository *)

Section VisitFacts.

Context `{GoLibs}.

Lemma signers_counted (signers : list Signer) :
  signers <> [] -> Z.eqb (Z.of_nat (length signers)) 0 = false.
Proof. destruct signers; [done|reflexivity]. Qed.

(** The first remote named origin has a URL the parser refuses. *)
Lemma deriveUsername_parse_fails
    (before after : list Remote) (origin : Remote) (url : string)
    (urls : list string) (e : error) :
  Forall notOrigin before ->
  remoteName origin = "origin" ->
  remoteURLs origin = url :: urls ->
  strings_HasPrefix url "git@" = false ->
  url_Parse url = Err e ->
  deriveUsername (before ++ origin :: after) = Abandon URLParseFailure (Some e).
Proof.
  intros Hbefore Hname Hurls Hprefix Hparse. unfold deriveUsername.
  assert (Hloop : forall username,
             usernameLoop (before ++ origin :: after) username
             = Abandon URLParseFailure (Some e)).
  { induction Hbefore as [|remote rest Hremote _ IH]; intros username; simpl.
    - unfold usernameOfRemote.
      rewrite bool_decide_eq_true_2 by exact Hname.
      rewrite Hurls, Hprefix, Hparse. reflexivity.
    - unfold usernameOfRemote at 1.
      rewrite bool_decide_eq_false_2 by exact Hremote. simpl. apply IH. }
  rewrite Hloop. reflexivity.
Qed.

Ltac unfold_stages :=
  unfold fetched, authBuilt, remotesListed, signersLoaded, statusTaken,
    fetchOptionsFor, remoteNameOf in *.

Ltac open_stages :=
  unfold_stages;
  repeat match goal with
         | Hex : exists _, _ |- _ => destruct Hex as [? Hex]
         | Hand : _ /\ _ |- _ => destruct Hand as [? ?]
         end.

Ltac follow_visit :=
  unfold checkRepository, try, step_bind;
  repeat match goal with
         | Heq : ?call = _ |- context [?call] => rewrite Heq
         | Hne : ?signers <> [] |- context [length ?signers] =>
             rewrite (signers_counted signers Hne)
         end.

(** A failing step gives the visit up, with the failure of that step. *)
Lemma stepFails_abandons (r : Repository) (env : Env) (path : string)
    (f : Failure) :
  stepFails r env f -> exists e, checkRepository r env path = Abandon f e.
Proof.
  intros Hfails.
  destruct Hfails as
    [ e Hw | w e Hw Hs | status e Hst Hag | status Hst Hag
    | status e Hst Hsig Hrem
    | remotes before origin url urls after e Hrem Hsplit Hbefore Hname Hurls Hprefix Hparse
    | remotes username e Hrem Huser Hauth
    | auth e Hauth Hfetch Hne
    | e Hfetched Hhead
    | headRef e Hfetched Hhead Hrref
    | headRef remoteRef n e Hfetched Hhead Hrref Hcount ].
  - follow_visit. eauto.
  - follow_visit. eauto.
  - open_stages. follow_visit. eauto.
  - open_stages. follow_visit. simpl. eauto.
  - open_stages. follow_visit. eauto.
  - pose proof (deriveUsername_parse_fails before after origin url urls e
                  Hbefore Hname Hurls Hprefix Hparse) as Huser.
    rewrite <- Hsplit in Huser. clear Hsplit Hparse Hprefix Hurls Hname.
    open_stages. follow_visit. eauto.
  - open_stages. follow_visit. eauto.
  - open_stages. follow_visit. unfold fetchFailed.
    rewrite bool_decide_eq_false_2 by exact Hne. simpl. eauto.
  - open_stages.
    match goal with Hor : _ \/ _ |- _ => destruct Hor end;
      follow_visit; simpl; eauto.
  - open_stages.
    match goal with Hor : _ \/ _ |- _ => destruct Hor end;
      follow_visit; simpl; eauto.
  - open_stages.
    match goal with Hor : _ \/ _ |- _ => destruct Hor end;
      follow_visit; simpl; eauto.
Qed.




End VisitFacts.

(** ** The claims on the walker *)

Section WalkerClaims.

Context `{GoLibs}.

(** C6. When a step of the processing sequence of a repository fails
    (worktree, status, signers, empty signer set, remotes, URL parse,
    auth, fetch, HEAD, remote-tracking reference, history walk), the
    visit returns with the result list as it was: no Result Record is
    appended.  The walk goes on: the loop over the entries of the parent
    directory continues with the entries after the failed one. *)
Theorem failed_visit_records_nothing (v : Variant) (maxDepth : Z)
    (r : Repository) (env : Env) (listing : result (list DirEnt))
    (f : Failure) (path : string) (depth : Z) (st : Store) :
  stepFails r env f ->
  (exists st',
      visitAndCheckGit v maxDepth (MkNode (Some (r, env)) listing) path depth st
      = Returned st'
      /\ repos st' = repos st)
  /\ (forall parent pdepth name mode rest,
        exists st',
          rangeFiles v (visitAndCheckGit v maxDepth) parent pdepth
            (MkEnt name mode (MkNode (Some (r, env)) listing) :: rest) st
          = rangeFiles v (visitAndCheckGit v maxDepth) parent pdepth rest st'
          /\ repos st' = repos st).
Proof.
  intros Hfails.
  assert (Hvisit : forall p d,
             exists st',
               visitAndCheckGit v maxDepth (MkNode (Some (r, env)) listing) p d st
               = Returned st' /\ repos st' = repos st).
  { intros p d. simpl. destruct (Z.gtb d maxDepth); [eauto|].
    destruct (stepFails_abandons r env p f Hfails) as [e ->].
    eexists. split; reflexivity. }
  split; [apply Hvisit|].
  intros parent pdepth name mode rest.
  cbn [rangeFiles]. destruct (descends v mode); [|eauto].
  destruct (Hvisit (filepath_Join parent name) (GoInt.incr pdepth))
    as (st' & -> & Hrepos).
  eauto.
Qed.


(** C9. The walker does not enter an entry that is a symbolic link, nor
    one that is no directory: the loop over a listing passes such an
    entry over, whatever it points at, and the walk of a tree is the walk
    of the tree with all such entries removed. *)
Theorem symlinks_never_entered (v : Variant) (maxDepth : Z) (n : FsNode)
    (path : string) (depth : Z) (st : Store) :
  visitAndCheckGit v maxDepth (withoutLinks n) path depth st
  = visitAndCheckGit v maxDepth n path depth st
  /\ (forall visit name mode target rest,
        Z.testbit mode 31 = false \/ Z.testbit mode 27 = true ->
        rangeFiles v visit path depth (MkEnt name mode target :: rest) st
        = rangeFiles v visit path depth rest st).
Proof.
  split; [apply visit_withoutLinks|].
  intros visit name mode target rest Hmode. cbn [rangeFiles].
  rewrite descends_isRealDir. unfold isRealDir.
  destruct Hmode as [-> | ->]; [reflexivity|].
  rewrite andb_false_r. reflexivity.
Qed.

(** C10, as the code has it.  The variant that lists with [os.ReadDir]
    and the variant that lists with [ioutil.ReadDir] walk alike in every
    state of the file system in which the two listing calls agree at every
    directory listed (both fail, or both give entries of the same names in
    the same order with the same type bits): from every starting path and
    for every depth limit both return or both panic, they visit the same
    paths at the same depths in the same order, and they produce the same
    sequence of Result Records. *)
Theorem variants_alike_where_listings_agree (maxDepth : Z)
    (asOsReadDir asIoutilReadDir : FsNode) (rootPath : string) :
  listingsAgree asOsReadDir asIoutilReadDir ->
  returned (mainWalk OsReadDir maxDepth asOsReadDir rootPath)
  = returned (mainWalk IoutilReadDir maxDepth asIoutilReadDir rootPath)
  /\ visited (logged (storeOf (mainWalk OsReadDir maxDepth asOsReadDir rootPath)))
     = visited (logged (storeOf
                          (mainWalk IoutilReadDir maxDepth asIoutilReadDir rootPath)))
  /\ repos (storeOf (mainWalk OsReadDir maxDepth asOsReadDir rootPath))
     = repos (storeOf (mainWalk IoutilReadDir maxDepth asIoutilReadDir rootPath)).
Proof.
  intros Hagree.
  destruct (views_walk_alike maxDepth asOsReadDir asIoutilReadDir Hagree
              rootPath 0 emptyStore emptyStore) as (Hreturned & Hrepos & Hvisited).
  - repeat split.
  - auto.
Qed.

End WalkerClaims.

(** C6 at a repository visited while no agent can be reached. *)
Lemma failed_visit_records_nothing_witness :
  stepFails (H := Plain.libs) Sample.github Sample.noAgent AgentUnavailable
  /\ exists st',
       visitAndCheckGit (H := Plain.libs) OsReadDir 4
         (Sample.repoNode Sample.github Sample.noAgent) "root/a" 1 emptyStore
       = Returned st'
       /\ repos st' = [].
Proof.
  assert (Hfails : stepFails (H := Plain.libs) Sample.github Sample.noAgent
                     AgentUnavailable).
  { apply (signers_fail (H := Plain.libs) _ _ Sample.status3
             (ErrOther "dial unix: missing address")).
    - eexists. split; reflexivity.
    - reflexivity. }
  split; [exact Hfails|].
  apply (failed_visit_records_nothing (H := Plain.libs) OsReadDir 4
           Sample.github Sample.noAgent
           (Ok [MkEnt ".git" Sample.dirMode (MkNode None (Ok []))])
           AgentUnavailable "root/a" 1 emptyStore Hfails).
Defined.

(** C8 at depth 1 under maximum depth 0, on a repository. *)
Lemma depth_bound_cuts_the_walk_witness :
  1 > 0
  /\ visitAndCheckGit (H := Plain.libs) IoutilReadDir 0
       (Sample.repoNode Sample.github Sample.env) "root/a" 1 emptyStore
     = Returned emptyStore.
Proof.
  split; [reflexivity|].
  apply (depth_bound_cuts_the_walk (H := Plain.libs) IoutilReadDir 0
           (Sample.repoNode Sample.github Sample.env) "root/a" 1 emptyStore).
  reflexivity.
Defined.

(** C9 at a symbolic link that points at a repository. *)
Lemma symlinks_never_entered_witness :
  Z.testbit Sample.linkMode 27 = true
  /\ rangeFiles (H := Plain.libs) OsReadDir
       (visitAndCheckGit (H := Plain.libs) OsReadDir 4) "root" 0
       [MkEnt "e" Sample.linkMode (Sample.repoNode Sample.github Sample.env)]
       emptyStore
     = Returned emptyStore.
Proof.
  split; [reflexivity|].
  destruct (symlinks_never_entered (H := Plain.libs) OsReadDir 4
              Sample.root "root" 0 emptyStore) as [_ Hskip].
  rewrite Hskip; [reflexivity|].
  right. reflexivity.
Defined.


(** C10 at the sample tree, listed with type bits only by [os.ReadDir] and
    with the full modes by [ioutil.ReadDir]. *)
Lemma variants_alike_where_listings_agree_witness :
  listingsAgree MoreSamples.rootAsDirEntries Sample.root
  /\ visited (logged (storeOf (mainWalk (H := Plain.libs) OsReadDir 4
                                 MoreSamples.rootAsDirEntries "root")))
     = visited (logged (storeOf (mainWalk (H := Plain.libs) IoutilReadDir 4
                                   Sample.root "root")))
  /\ repos (storeOf (mainWalk (H := Plain.libs) OsReadDir 4
                       MoreSamples.rootAsDirEntries "root"))
     = repos (storeOf (mainWalk (H := Plain.libs) IoutilReadDir 4
                         Sample.root "root")).
Proof.
  assert (Hagree : listingsAgree MoreSamples.rootAsDirEntries Sample.root).
  { assert (Hrepo : listingsAgree (Sample.repoNode Sample.github Sample.env)
                      (Sample.repoNode Sample.github Sample.env))
      by apply agree_repository.
    assert (Hskip : forall mode t1 t2,
               isRealDir mode = false ->
               isRealDir mode = true -> listingsAgree t1 t2)
      by (intros mode t1 t2 ->; discriminate).
    apply agree_listed.
    constructor; [split; [reflexivity|split; [reflexivity|]]|].
    { apply Hskip. reflexivity. }
    constructor; [split; [reflexivity|split; [reflexivity|]]|].
    { intros _. exact Hrepo. }
    constructor; [split; [reflexivity|split; [reflexivity|]]|].
    { intros _. apply agree_listed.
      constructor; [|constructor].
      split; [reflexivity|split; [reflexivity|]]. intros _. exact Hrepo. }
    constructor; [split; [reflexivity|split; [reflexivity|]]|].
    { intros _. apply agree_listed. constructor. }
    constructor; [split; [reflexivity|split; [reflexivity|]]|].
    { apply Hskip. reflexivity. }
    constructor. }
  split; [exact Hagree|].
  destruct (variants_alike_where_listings_agree (H := Plain.libs) 4
              MoreSamples.rootAsDirEntries Sample.root "root" Hagree)
    as (_ & Hvisited & Hrepos).
  split; [exact Hvisited | exact Hrepos].
Defined.

(** The claim of C10 on a directory root that may be read but not
    searched, with a subdirectory sub: [os.ReadDir] lists it and the first
    variant visits root/sub, [ioutil.ReadDir] fails on the [lstat] of the
    entry and the second variant stops at root.  The two variants do not
    visit the same paths. *)
Lemma variants_differ_where_lstat_fails :
  visited (logged (storeOf (mainWalk (H := Plain.libs) OsReadDir 4
                              MoreSamples.unsearchableAsOsReadDir "root")))
  = [ ("root", 0); ("root/sub", 1) ]
  /\ visited (logged (storeOf (mainWalk (H := Plain.libs) IoutilReadDir 4
                                 MoreSamples.unsearchableAsIoutilReadDir "root")))
     = [ ("root", 0) ]
  /\ visited (logged (storeOf (mainWalk (H := Plain.libs) OsReadDir 4
                                 MoreSamples.unsearchableAsOsReadDir "root")))
     <> visited (logged (storeOf (mainWalk (H := Plain.libs) IoutilReadDir 4
                                    MoreSamples.unsearchableAsIoutilReadDir "root"))).
Proof.
  split; [reflexivity|]. split; [reflexivity|].
  vm_compute. discriminate.
Qed.

(** ** The walk of the sample tree *)

(** The tree root/{a/.git, b/c/.git, d, e -> a}: two Result Records, for
    root/a and root/b/c, in the order of the walk; the link is not
    entered. *)
Example walk_of_sample_tree :
  mainWalk (H := Plain.libs) OsReadDir 4 Sample.root "root"
  = Returned
      {| repos := [ {| Path := "root/a"; LocalChanges := 2; RemoteChanges := 2 |};
                    {| Path := "root/b/c"; LocalChanges := 2; RemoteChanges := 2 |} ];
         logged := [ Visiting "root" 0; Visiting "root/a" 1; Checking "root/a";
                     Visiting "root/b" 1; Visiting "root/b/c" 2;
                     Checking "root/b/c"; Visiting "root/d" 1 ] |}.
Proof. vm_compute. reflexivity. Qed.

(** Without an agent every repository is given up and the walk still runs
    to its end. *)
Example walk_without_agent :
  repos (storeOf (mainWalk (H := Plain.libs) IoutilReadDir 4
                    (MkNode None (Ok [
                       MkEnt "a" Sample.dirMode
                         (Sample.repoNode Sample.github Sample.noAgent);
                       MkEnt "b" Sample.dirMode
                         (Sample.repoNode Sample.github Sample.env)]))
                    "root"))
  = [ {| Path := "root/b"; LocalChanges := 2; RemoteChanges := 2 |} ].
Proof. vm_compute. reflexivity. Qed.

(** * Further properties *)

(** ** Change Counter: bounds and the clean tree *)

Lemma countChanges_as_length (status : Status) :
  Z.of_nat (size status) <= GoInt.max_int ->
  countChanges status
  = Z.of_nat (length (filter isChange (map_to_list status))).
Proof.
  intros Hfit. unfold countChanges.
  rewrite countChanges_range_spec; rewrite ?length_map_to_list; lia.
Qed.

(** X1. The count of local changes is never negative and never more than
    the number of files of the snapshot. *)
Theorem countChanges_bounds (status : Status) :
  Z.of_nat (size status) <= GoInt.max_int ->
  0 <= countChanges status <= Z.of_nat (size status).
Proof.
  intros Hfit. rewrite countChanges_as_length by exact Hfit.
  pose proof (length_filter isChange (map_to_list status)) as Hle.
  rewrite length_map_to_list in Hle. lia.
Qed.

Lemma countChanges_bounds_witness :
  Z.of_nat (size Sample.status3) <= GoInt.max_int
  /\ 0 <= countChanges Sample.status3 <= 3.
Proof.
  split; [vm_compute; discriminate|].
  apply (countChanges_bounds Sample.status3). vm_compute; discriminate.
Defined.

Lemma changed_false (s : FileStatus) :
  changed s = false <-> Staging s = Unmodified /\ Worktree s = Unmodified.
Proof.
  unfold changed. rewrite orb_false_iff, !negb_false_iff, !bool_decide_eq_true.
  reflexivity.
Qed.

(** X2. The count is 0 exactly when every file of the snapshot is
    unmodified both in the index and in the worktree. *)
Theorem countChanges_zero_iff_clean (status : Status) :
  Z.of_nat (size status) <= GoInt.max_int ->
  countChanges status = 0
  <-> (forall path s, status !! path = Some s ->
         Staging s = Unmodified /\ Worktree s = Unmodified).
Proof.
  intros Hfit. rewrite countChanges_as_length by exact Hfit.
  split.
  - intros Hzero path s Hlookup. apply changed_false.
    destruct (changed s) eqn:Hs; [|reflexivity].
    assert (Hin : (path, s) ∈ filter isChange (map_to_list status)).
    { apply list_elem_of_filter. split; [exact Hs|].
      apply elem_of_map_to_list, Hlookup. }
    destruct (filter isChange (map_to_list status)); [|simpl in Hzero; lia].
    apply elem_of_nil in Hin. destruct Hin.
  - intros Hclean.
    destruct (filter isChange (map_to_list status)) as [|[path s] rest] eqn:Hf;
      [reflexivity|].
    assert (Hin : (path, s) ∈ filter isChange (map_to_list status))
      by (rewrite Hf; left).
    apply list_elem_of_filter in Hin as [Hs Hin].
    apply elem_of_map_to_list, Hclean, changed_false in Hin.
    unfold isChange in Hs. simpl in Hs. congruence.
Qed.

Lemma countChanges_zero_iff_clean_witness :
  Z.of_nat (size Sample.status3) <= GoInt.max_int
  /\ ~ (forall path s, Sample.status3 !! path = Some s ->
          Staging s = Unmodified /\ Worktree s = Unmodified).
Proof.
  split; [vm_compute; discriminate|].
  intros Hclean.
  apply (countChanges_zero_iff_clean Sample.status3) in Hclean.
  - vm_compute in Hclean. discriminate.
  - vm_compute; discriminate.
Defined.

(** ** Remote Divergence Counter: errors, bounds, the stop sentinel *)

Lemma commitsBefore_length (h : Hash) (cs : list Commit) :
  (length (commitsBefore h cs) <= length cs)%nat.
Proof.
  induction cs as [|c cs IH]; simpl; [lia|].
  destruct (N.eqb (commitHash c) h); simpl; lia.
Qed.

(** The loop of the counter in general: it counts the commits before the
    first one that is the local HEAD, and ends with the stop sentinel when
    there is one, with the end of the iterator when there is none. *)
Lemma ForEach_count stopIsNil headRef cs fin (acc : Z) :
  0 <= acc ->
  acc + Z.of_nat (length cs) <= GoInt.max_int ->
  ForEach stopIsNil cs fin (countCallback headRef) acc
  = (if onHistory (refHash headRef) cs
     then (if stopIsNil then None else Some ErrStop) else fin,
     acc + Z.of_nat (length (commitsBefore (refHash headRef) cs)),
     S (length (commitsBefore (refHash headRef) cs))).
Proof.
  revert acc. induction cs as [|c cs IH]; intros acc Hpos Hfit; simpl.
  - rewrite Z.add_0_r. reflexivity.
  - rewrite length_cons in Hfit. unfold countCallback at 1.
    destruct (N.eqb (commitHash c) (refHash headRef)); simpl.
    + rewrite Z.add_0_r. destruct stopIsNil; reflexivity.
    + rewrite GoInt_incr_small by lia. rewrite IH by lia.
      replace (acc + 1 + Z.of_nat (length (commitsBefore (refHash headRef) cs)))
        with (acc + Z.of_nat (S (length (commitsBefore (refHash headRef) cs))))
        by lia.
      reflexivity.
Qed.

(** What the counter returns on distinct hashes once [r.Log] has given an
    iterator. *)
Lemma countRemoteChanges_walk (r : Repository) (headRef remoteRef : Reference)
    (cIter : CommitIter) :
  refHash headRef <> refHash remoteRef ->
  r_Log r (refHash remoteRef) = Ok cIter ->
  Z.of_nat (length (iterCommits cIter)) <= GoInt.max_int ->
  fst (countRemoteChanges r headRef remoteRef)
  = let walked :=
      Z.of_nat (length (commitsBefore (refHash headRef) (iterCommits cIter))) in
    if onHistory (refHash headRef) (iterCommits cIter) then (walked, None)
    else
      match iterEnd cIter with
      | None => (walked, None)
      | Some e => if bool_decide (e = ErrStop) then (walked, None) else (0, Some e)
      end.
Proof.
  intros Hne Hlog Hfit. unfold countRemoteChanges.
  apply N.eqb_neq in Hne. rewrite Hne, Hlog.
  rewrite ForEach_count by lia. rewrite Z.add_0_l.
  destruct (onHistory (refHash headRef) (iterCommits cIter)).
  - destruct (r_stopIsNil r); reflexivity.
  - destruct (iterEnd cIter) as [e|]; [|reflexivity].
    destruct (bool_decide (e = ErrStop)); reflexivity.
Qed.

(** X3. A failure of the history traversal is returned with the count 0:
    an error of [r.Log] at once, and an error that ends the iterator
    before the local HEAD was met with the commits counted so far
    dropped. *)
Theorem countRemoteChanges_traversal_error
    (r : Repository) (headRef remoteRef : Reference) :
  refHash headRef <> refHash remoteRef ->
  (forall e, r_Log r (refHash remoteRef) = Err e ->
     countRemoteChanges r headRef remoteRef
     = ((0, Some e), [CallLog (refHash remoteRef)]))
  /\ (forall cIter e,
        r_Log r (refHash remoteRef) = Ok cIter ->
        Forall (notHead headRef) (iterCommits cIter) ->
        iterEnd cIter = Some e ->
        e <> ErrStop ->
        Z.of_nat (length (iterCommits cIter)) <= GoInt.max_int ->
        fst (countRemoteChanges r headRef remoteRef) = (0, Some e)).
Proof.
  intros Hne. apply N.eqb_neq in Hne. split.
  - intros e Hlog. unfold countRemoteChanges. rewrite Hne, Hlog. reflexivity.
  - intros cIter e Hlog Hnot Hend Hstop Hfit.
    unfold countRemoteChanges. rewrite Hne, Hlog.
    rewrite (ForEach_counts_all _ headRef) by (done || lia).
    rewrite Hend, bool_decide_eq_false_2 by exact Hstop. reflexivity.
Qed.

Lemma countRemoteChanges_traversal_error_witness :
  fst (countRemoteChanges
         (Sample.repo "git@github.com:org/repo.git" MoreSamples.brokenHistory)
         Sample.headRef Sample.remoteRef)
  = (0, Some (ErrOther "object not found")).
Proof.
  destruct (countRemoteChanges_traversal_error
              (Sample.repo "git@github.com:org/repo.git" MoreSamples.brokenHistory)
              Sample.headRef Sample.remoteRef) as [_ Hbroken].
  - vm_compute; discriminate.
  - apply (Hbroken MoreSamples.brokenHistory (ErrOther "object not found")).
    + reflexivity.
    + repeat constructor; vm_compute; discriminate.
    + reflexivity.
    + discriminate.
    + vm_compute; discriminate.
Defined.

(** On equal hashes the counter answers at once. *)
Lemma countRemoteChanges_equal_hashes_aux
    (r : Repository) (headRef remoteRef : Reference) :
  refHash headRef = refHash remoteRef ->
  fst (countRemoteChanges r headRef remoteRef) = (0, None).
Proof.
  intros Heq. unfold countRemoteChanges.
  apply N.eqb_eq in Heq. rewrite Heq. reflexivity.
Qed.

(** The range of the count, in every case of the counter. *)
Lemma countRemoteChanges_range
    (r : Repository) (headRef remoteRef : Reference) (n : Z) (err : option error) :
  (forall cIter, r_Log r (refHash remoteRef) = Ok cIter ->
     Z.of_nat (length (iterCommits cIter)) <= GoInt.max_int) ->
  fst (countRemoteChanges r headRef remoteRef) = (n, err) ->
  0 <= n
  /\ (is_Some err -> n = 0)
  /\ (forall cIter, r_Log r (refHash remoteRef) = Ok cIter ->
        n <= Z.of_nat (length (iterCommits cIter))).
Proof.
  intros Hfit Hresult.
  destruct (N.eqb_spec (refHash headRef) (refHash remoteRef)) as [Heq|Hne].
  - rewrite countRemoteChanges_equal_hashes_aux in Hresult by exact Heq.
    injection Hresult as <- <-.
    split; [lia|]. split; [reflexivity|]. intros cIter _. lia.
  - destruct (r_Log r (refHash remoteRef)) as [e|cIter] eqn:Hlog.
    + unfold countRemoteChanges in Hresult.
      apply N.eqb_neq in Hne. rewrite Hne, Hlog in Hresult.
      injection Hresult as <- <-.
      split; [lia|]. split; [reflexivity|]. intros cIter Hcontra. discriminate.
    + rewrite (countRemoteChanges_walk r headRef remoteRef cIter Hne Hlog
                 (Hfit cIter eq_refl)) in Hresult.
      pose proof (commitsBefore_length (refHash headRef) (iterCommits cIter)) as Hle.
      assert (Hcases :
                (n = Z.of_nat (length (commitsBefore (refHash headRef)
                                         (iterCommits cIter))) /\ err = None)
                \/ (n = 0 /\ is_Some err)).
      { cbv zeta in Hresult.
        destruct (onHistory (refHash headRef) (iterCommits cIter));
          [injection Hresult as <- <-; left; done|].
        destruct (iterEnd cIter) as [e|];
          [|injection Hresult as <- <-; left; done].
        destruct (bool_decide (e = ErrStop));
          injection Hresult as <- <-; [left; done | right; eauto]. }
      destruct Hcases as [[-> ->] | [-> Herr]].
      * split; [lia|]. split; [intros [? ?]; discriminate|].
        intros cIter' [= <-]. lia.
      * split; [lia|]. split; [reflexivity|].
        intros cIter' [= <-]. lia.
Qed.

(** X4. Whatever the repository answers, the count returned is never
    negative, is 0 beside an error, and is at most the number of commits of
    the history walked. *)
Theorem countRemoteChanges_bounds
    (r : Repository) (headRef remoteRef : Reference) (n : Z) (err : option error) :
  (forall cIter, r_Log r (refHash remoteRef) = Ok cIter ->
     Z.of_nat (length (iterCommits cIter)) <= GoInt.max_int) ->
  fst (countRemoteChanges r headRef remoteRef) = (n, err) ->
  0 <= n
  /\ (is_Some err -> n = 0)
  /\ (forall cIter, r_Log r (refHash remoteRef) = Ok cIter ->
        n <= Z.of_nat (length (iterCommits cIter))).
Proof. apply countRemoteChanges_range. Qed.

Lemma countRemoteChanges_bounds_witness :
  0 <= 2
  /\ (forall cIter,
        r_Log Sample.github (refHash Sample.remoteRef) = Ok cIter ->
        2 <= Z.of_nat (length (iterCommits cIter))).
Proof.
  destruct (countRemoteChanges_bounds Sample.github Sample.headRef
              Sample.remoteRef 2 None) as (Hpos & _ & Hle).
  - intros cIter [= <-]. vm_compute; discriminate.
  - reflexivity.
  - split; [exact Hpos | exact Hle].
Defined.

(** The two treatments of the stop sentinel by the iterator's loop differ
    in the error they hand back only: nil or the sentinel. *)
Lemma ForEach_sentinel {S : Type} (cs : list Commit) (fin : option error)
    (cb : Commit -> S -> option error * S) (s : S) :
  snd (ForEach true cs fin cb s) = snd (ForEach false cs fin cb s)
  /\ snd (fst (ForEach true cs fin cb s)) = snd (fst (ForEach false cs fin cb s))
  /\ (fst (fst (ForEach true cs fin cb s)) = fst (fst (ForEach false cs fin cb s))
      \/ (fst (fst (ForEach true cs fin cb s)) = None
          /\ fst (fst (ForEach false cs fin cb s)) = Some ErrStop)).
Proof.
  revert s. induction cs as [|c cs IH]; intros s; simpl.
  - auto.
  - destruct (cb c s) as [[e|] s'].
    + simpl. split; [reflexivity|]. split; [reflexivity|].
      case_bool_decide; subst; auto.
    + specialize (IH s').
      destruct (ForEach true cs fin cb s') as [[e1 s1] n1].
      destruct (ForEach false cs fin cb s') as [[e2 s2] n2].
      simpl in *. destruct IH as (-> & -> & IH). auto.
Qed.

(** X5. The counter returns the same whether the iterator's loop hands the
    stop sentinel of the callback back or turns it into nil: the test
    [err != storer.ErrStop] after the loop covers both. *)
Theorem countRemoteChanges_sentinel_independent
    (r : Repository) (stopIsNil : bool) (headRef remoteRef : Reference) :
  countRemoteChanges (withStopIsNil r stopIsNil) headRef remoteRef
  = countRemoteChanges r headRef remoteRef.
Proof.
  unfold countRemoteChanges. cbn [withStopIsNil r_Log r_stopIsNil].
  destruct (N.eqb (refHash headRef) (refHash remoteRef)); [reflexivity|].
  destruct (r_Log r (refHash remoteRef)) as [e|cIter]; [reflexivity|].
  pose proof (ForEach_sentinel (iterCommits cIter) (iterEnd cIter)
                (countCallback headRef) 0) as (Hn & Hs & He).
  destruct stopIsNil, (r_stopIsNil r); try reflexivity;
    destruct (ForEach true _ _ _ _) as [[e1 s1] n1];
    destruct (ForEach false _ _ _ _) as [[e2 s2] n2];
    simpl in *; subst;
    destruct He as [-> | [-> ->]]; reflexivity.
Qed.

(** ** The walk: what it adds to the store *)

Lemma extend_empty_r (st : Store) : extend st emptyStore = st.
Proof. destruct st. unfold extend. simpl. rewrite !app_nil_r. reflexivity. Qed.

Lemma extend_empty_l (st : Store) : extend emptyStore st = st.
Proof. destruct st. reflexivity. Qed.

Lemma extend_assoc (st1 st2 st3 : Store) :
  extend (extend st1 st2) st3 = extend st1 (extend st2 st3).
Proof. unfold extend. simpl. rewrite !app_assoc. reflexivity. Qed.

Lemma say_extend (l : LogLine) (st added : Store) :
  say l (extend st added) = extend st (say l added).
Proof. unfold say, extend. simpl. rewrite app_assoc. reflexivity. Qed.

Lemma record_extend (rec : repoStatus) (st added : Store) :
  record rec (extend st added) = extend st (record rec added).
Proof. unfold record, extend. simpl. rewrite app_assoc. reflexivity. Qed.

Lemma runExtend_runExtend (st added : Store) (r : run) :
  runExtend st (runExtend added r) = runExtend (extend st added) r.
Proof. destruct r; simpl; rewrite extend_assoc; reflexivity. Qed.

Section Frame.

Context `{GoLibs}.

Lemma rangeFiles_frame (v : Variant)
    (visit : FsNode -> string -> Z -> Store -> run)
    (path : string) (depth : Z) (files : list DirEnt) :
  Forall (fun f => forall p d s,
            visit (entTarget f) p d s
            = runExtend s (visit (entTarget f) p d emptyStore)) files ->
  forall st,
    rangeFiles v visit path depth files st
    = runExtend st (rangeFiles v visit path depth files emptyStore).
Proof.
  induction 1 as [|[name mode target] rest Hvisit _ IH]; intros st; simpl.
  - rewrite extend_empty_r. reflexivity.
  - destruct (descends v mode); [|apply IH].
    simpl in Hvisit. rewrite Hvisit.
    destruct (visit target _ _ emptyStore) as [added|added]; simpl.
    + rewrite IH, (IH added), runExtend_runExtend. reflexivity.
    + reflexivity.
Qed.

Lemma visit_frame (v : Variant) (maxDepth : Z) (n : FsNode) :
  forall path depth st,
    visitAndCheckGit v maxDepth n path depth st
    = runExtend st (visitAndCheckGit v maxDepth n path depth emptyStore).
Proof.
  assert (Hidle : forall st, Returned st = runExtend st (Returned emptyStore)).
  { intros st. cbn [runExtend]. rewrite extend_empty_r. reflexivity. }
  assert (Hsay : forall l st, say l st = extend st (say l emptyStore)).
  { intros l st. rewrite <- say_extend, extend_empty_r. reflexivity. }
  assert (Hrepo : forall r env listing path depth st,
             visitAndCheckGit v maxDepth (MkNode (Some (r, env)) listing) path depth st
             = runExtend st
                 (visitAndCheckGit v maxDepth (MkNode (Some (r, env)) listing)
                    path depth emptyStore)).
  { intros r env listing path depth st. cbn [visitAndCheckGit].
    destruct (Z.gtb depth maxDepth); [apply Hidle|].
    rewrite (Hsay _ st), !say_extend.
    destruct (checkRepository r env path); cbn [runExtend];
      rewrite ?record_extend, ?say_extend; reflexivity. }
  induction n as [opened e|opened files IH] using FsNode_tree_ind;
    intros path depth st.
  - destruct opened as [[r env]|]; [apply Hrepo|]. cbn [visitAndCheckGit].
    destruct (Z.gtb depth maxDepth); [apply Hidle|].
    rewrite (Hsay _ st), !say_extend. reflexivity.
  - destruct opened as [[r env]|]; [apply Hrepo|]. cbn [visitAndCheckGit].
    destruct (Z.gtb depth maxDepth); [apply Hidle|].
    rewrite (rangeFiles_frame v _ path depth files IH (say _ st)).
    rewrite (rangeFiles_frame v _ path depth files IH (say _ emptyStore)).
    rewrite runExtend_runExtend, <- Hsay. reflexivity.
Qed.

(** X6. What a visit does to the store does not depend on what the store
    holds: the records and log lines present stay in front, in their
    order, and behind them come the records and lines the same visit makes
    from an empty store; whether the visit panics does not depend on the
    store either. *)
Theorem visit_only_appends (v : Variant) (maxDepth : Z) (n : FsNode)
    (path : string) (depth : Z) (st : Store) :
  visitAndCheckGit v maxDepth n path depth st
  = runExtend st (visitAndCheckGit v maxDepth n path depth emptyStore)
  /\ repos (storeOf (visitAndCheckGit v maxDepth n path depth st))
     = (repos st ++ newRecords v maxDepth n path depth)%list.
Proof.
  split; [apply visit_frame|].
  rewrite visit_frame. unfold newRecords.
  destruct (visitAndCheckGit v maxDepth n path depth emptyStore); reflexivity.
Qed.

End Frame.

(** ** The walk: depth of the visits *)

Lemma visitsWithin_say (maxDepth : Z) (l : LogLine) (st : Store) :
  visitsWithin maxDepth st ->
  (forall p d, l = Visiting p d -> d <= maxDepth) ->
  visitsWithin maxDepth (say l st).
Proof.
  intros Hst Hl p d Hin. unfold say in Hin. cbn [logged] in Hin.
  apply in_app_or in Hin as [Hin|[Hin|[]]]; [eapply Hst, Hin | eapply Hl, Hin].
Qed.

Section Depth.

Context `{GoLibs}.

Lemma rangeFiles_within (v : Variant) (maxDepth : Z)
    (visit : FsNode -> string -> Z -> Store -> run)
    (path : string) (depth : Z) (files : list DirEnt) :
  Forall (fun f => forall p d s,
            visitsWithin maxDepth s ->
            visitsWithin maxDepth (storeOf (visit (entTarget f) p d s))) files ->
  forall st,
    visitsWithin maxDepth st ->
    visitsWithin maxDepth (storeOf (rangeFiles v visit path depth files st)).
Proof.
  induction 1 as [|[name mode target] rest Hvisit _ IH]; intros st Hst;
    cbn [rangeFiles]; [exact Hst|].
  destruct (descends v mode); [|apply IH, Hst].
  specialize (Hvisit (filepath_Join path name) (GoInt.incr depth) st Hst).
  cbn [entTarget] in Hvisit.
  destruct (visit target _ _ st) as [st'|st']; [apply IH|]; exact Hvisit.
Qed.

Lemma visit_within (v : Variant) (maxDepth : Z) (n : FsNode) :
  forall path depth st,
    visitsWithin maxDepth st ->
    visitsWithin maxDepth (storeOf (visitAndCheckGit v maxDepth n path depth st)).
Proof.
  assert (Hvisiting : forall path depth st,
             Z.gtb depth maxDepth = false ->
             visitsWithin maxDepth st ->
             visitsWithin maxDepth (say (Visiting path depth) st)).
  { intros path depth st Hdepth Hst. apply visitsWithin_say; [exact Hst|].
    intros p d [= -> ->]. destruct (Z.gtb_spec d maxDepth); [discriminate|lia]. }
  assert (Hrepo : forall r env listing path depth st,
             visitsWithin maxDepth st ->
             visitsWithin maxDepth
               (storeOf (visitAndCheckGit v maxDepth (MkNode (Some (r, env)) listing)
                           path depth st))).
  { intros r env listing path depth st Hst. cbn [visitAndCheckGit].
    destruct (Z.gtb depth maxDepth) eqn:Hdepth; [exact Hst|].
    assert (Hchecking : visitsWithin maxDepth
                          (say (Checking path) (say (Visiting path depth) st))).
    { apply visitsWithin_say; [apply Hvisiting; assumption|]. discriminate. }
    destruct (checkRepository r env path); cbn [storeOf].
    - intros p d Hin. apply (Hchecking p d Hin).
    - apply visitsWithin_say; [exact Hchecking|discriminate].
    - exact Hchecking. }
  induction n as [opened e|opened files IH] using FsNode_tree_ind;
    intros path depth st Hst.
  - destruct opened as [[r env]|]; [apply Hrepo, Hst|]. cbn [visitAndCheckGit].
    destruct (Z.gtb depth maxDepth) eqn:Hdepth; [exact Hst|]. cbn [storeOf].
    apply visitsWithin_say; [apply Hvisiting; assumption|discriminate].
  - destruct opened as [[r env]|]; [apply Hrepo, Hst|]. cbn [visitAndCheckGit].
    destruct (Z.gtb depth maxDepth) eqn:Hdepth; [exact Hst|].
    apply rangeFiles_within; [exact IH|]. apply Hvisiting; assumption.
Qed.

(** X7. No path is visited at a depth above the maximum: every line
    "Visiting path ... at depth d" a walk logs has d at most the maximum
    depth, at every level of the tree. *)
Theorem walk_stays_within_depth (v : Variant) (maxDepth : Z) (root : FsNode)
    (rootPath p : string) (d : Z) :
  In (Visiting p d) (logged (storeOf (mainWalk v maxDepth root rootPath))) ->
  d <= maxDepth.
Proof.
  apply (visit_within v maxDepth root rootPath 0 emptyStore).
  intros p' d' [].
Qed.

End Depth.

Lemma walk_stays_within_depth_witness :
  In (Visiting "root/b" 1)
     (logged (storeOf (mainWalk (H := Plain.libs) OsReadDir 1 Sample.root "root")))
  /\ 1 <= 1.
Proof.
  assert (Hin : In (Visiting "root/b" 1)
                  (logged (storeOf (mainWalk (H := Plain.libs) OsReadDir 1
                                      Sample.root "root")))).
  { vm_compute. auto. }
  split; [exact Hin|].
  exact (walk_stays_within_depth (H := Plain.libs) OsReadDir 1 Sample.root
           "root" "root/b" 1 Hin).
Defined.

(** ** The visit of a repository: what a record stands for *)

Section Records.

Context `{GoLibs}.

Lemma fetchFailed_false (err : option error) :
  fetchFailed err = false -> err = None \/ err = Some NoErrAlreadyUpToDate.
Proof.
  destruct err as [e|]; [|auto]. unfold fetchFailed.
  rewrite negb_false_iff, bool_decide_eq_true. intros ->. auto.
Qed.

(** A record comes out of a visit all of whose steps succeeded. *)
Lemma checkRepository_Next_inv (r : Repository) (env : Env) (path : string)
    (rec : repoStatus) :
  checkRepository r env path = Next rec ->
  exists status headRef remoteRef n,
    fetched r env
    /\ statusTaken r status
    /\ r_Head r = Ok headRef
    /\ r_Reference r (remoteNameOf headRef) true = Ok remoteRef
    /\ fst (countRemoteChanges r headRef remoteRef) = (n, None)
    /\ rec = {| Path := path; LocalChanges := countChanges status;
                RemoteChanges := n |}.
Proof.
  unfold checkRepository, try, step_bind. intros Hrec.
  destruct (r_Worktree r) as [?|w] eqn:Hw; [discriminate|].
  destruct (w_Status w) as [?|status] eqn:Hs; [discriminate|].
  destruct (getSignersFromAgent env) as [?|signers] eqn:Hsig; [discriminate|].
  destruct (Z.eqb (Z.of_nat (length signers)) 0) eqn:Hlen; [discriminate|].
  destruct (r_Remotes r) as [?|remotes] eqn:Hrem; [discriminate|].
  destruct (deriveUsername remotes) as [username| |] eqn:Huser;
    [|discriminate|discriminate].
  destruct (NewSSHAgentAuth env username) as [?|auth] eqn:Hauth; [discriminate|].
  destruct (fetchFailed _) eqn:Hfetch; [discriminate|].
  destruct (r_Head r) as [?|headRef] eqn:Hhead; [discriminate|].
  destruct (r_Reference r _ true) as [?|remoteRef] eqn:Hrref; [discriminate|].
  destruct (fst (countRemoteChanges r headRef remoteRef)) as [n [e|]] eqn:Hcount;
    [discriminate|].
  injection Hrec as <-.
  exists status, headRef, remoteRef, n.
  assert (Hstatus : statusTaken r status) by (exists w; auto).
  split; [|auto].
  exists auth. split; [|apply fetchFailed_false, Hfetch].
  exists remotes, username. split; [|auto].
  split; [eauto|]. split; [|exact Hrem].
  exists signers. split; [exact Hsig|].
  intros ->. discriminate.
Qed.

(** X8. A Result Record is made only by a visit whose every step
    succeeded: status taken, signers loaded, user name derived, handle
    built, fetch without error or already up to date, HEAD and its
    remote-tracking reference resolved, history walked without error.  Its
    fields are the visited path, the Change Counter of the status and the
    count of the Remote Divergence Counter. *)
Theorem record_only_after_every_step (r : Repository) (env : Env)
    (path : string) (rec : repoStatus) :
  checkRepository r env path = Next rec ->
  exists status headRef remoteRef n,
    fetched r env
    /\ statusTaken r status
    /\ r_Head r = Ok headRef
    /\ r_Reference r (remoteNameOf headRef) true = Ok remoteRef
    /\ fst (countRemoteChanges r headRef remoteRef) = (n, None)
    /\ rec = {| Path := path; LocalChanges := countChanges status;
                RemoteChanges := n |}.
Proof. apply checkRepository_Next_inv. Qed.

(** X9. The fields of a Result Record: the path is the visited one, and
    neither count is negative.  The bounds on the sizes are those of Go:
    the size of a map and the length of a history walked fit an [int]. *)
Theorem record_counts_not_negative (r : Repository) (env : Env)
    (path : string) (rec : repoStatus) :
  (forall status, statusTaken r status ->
     Z.of_nat (size status) <= GoInt.max_int) ->
  (forall h cIter, r_Log r h = Ok cIter ->
     Z.of_nat (length (iterCommits cIter)) <= GoInt.max_int) ->
  checkRepository r env path = Next rec ->
  Path rec = path /\ 0 <= LocalChanges rec /\ 0 <= RemoteChanges rec.
Proof.
  intros Hstatus Hlog Hrec.
  apply checkRepository_Next_inv in Hrec
    as (status & headRef & remoteRef & n & _ & Htaken & _ & _ & Hcount & ->).
  cbn [Path LocalChanges RemoteChanges].
  split; [reflexivity|]. split.
  - rewrite countChanges_as_length by apply Hstatus, Htaken. lia.
  - eapply countRemoteChanges_range; [|exact Hcount].
    intros cIter. apply Hlog.
Qed.

End Records.

Lemma record_only_after_every_step_witness :
  checkRepository (H := Plain.libs) Sample.github Sample.env "root/a"
  = Next {| Path := "root/a"; LocalChanges := 2; RemoteChanges := 2 |}
  /\ exists status headRef remoteRef n,
       fetched (H := Plain.libs) Sample.github Sample.env
       /\ statusTaken Sample.github status
       /\ r_Head Sample.github = Ok headRef
       /\ r_Reference Sample.github (remoteNameOf (H := Plain.libs) headRef) true
          = Ok remoteRef
       /\ fst (countRemoteChanges Sample.github headRef remoteRef) = (n, None)
       /\ {| Path := "root/a"; LocalChanges := 2; RemoteChanges := 2 |}
          = {| Path := "root/a"; LocalChanges := countChanges status;
               RemoteChanges := n |}.
Proof.
  split; [reflexivity|].
  apply (record_only_after_every_step (H := Plain.libs) Sample.github
           Sample.env "root/a").
  reflexivity.
Defined.

Lemma record_counts_not_negative_witness :
  checkRepository (H := Plain.libs) Sample.github Sample.env "root/a"
  = Next {| Path := "root/a"; LocalChanges := 2; RemoteChanges := 2 |}
  /\ 0 <= 2.
Proof.
  split; [reflexivity|].
  destruct (record_counts_not_negative (H := Plain.libs) Sample.github
              Sample.env "root/a"
              {| Path := "root/a"; LocalChanges := 2; RemoteChanges := 2 |})
    as (_ & Hlocal & _).
  - intros status (w & [= <-] & [= <-]). vm_compute; discriminate.
  - intros h cIter. unfold Sample.github, Sample.repo. cbn [r_Log].
    destruct (N.eqb h 3); [|discriminate].
    intros [= <-]. vm_compute; discriminate.
  - reflexivity.
  - exact Hlocal.
Defined.

(** ** The visit of a repository: what it asks of the world *)

Section Asks.

Context `{GoLibs}.

Lemma deriveUsername_not_empty (remotes : list Remote) (username : string) :
  deriveUsername remotes = Next username -> username <> "".
Proof.
  unfold deriveUsername, step_bind.
  destruct (usernameLoop remotes "") as [found| |]; [|discriminate..].
  intros [= <-]. case_bool_decide; [discriminate|assumption].
Qed.

(** X10. The fetch is made from the remote [origin] with host keys
    accepted unchecked, and with no other options: answers of the
    repository to any other fetch have no part in the visit. *)
Theorem fetch_only_from_origin_unchecked (r : Repository) (env : Env)
    (path : string) (fetch1 fetch2 : FetchOptions -> option error) :
  (forall user,
      fetch1 {| RemoteName := "origin";
                FetchAuth := {| authUser := user; insecureIgnoreHostKey := true |} |}
      = fetch2 {| RemoteName := "origin";
                  FetchAuth := {| authUser := user; insecureIgnoreHostKey := true |} |}) ->
  checkRepository (withFetch r fetch1) env path
  = checkRepository (withFetch r fetch2) env path.
Proof.
  intros Hagree. unfold checkRepository, try, step_bind.
  cbn [withFetch r_Worktree r_Remotes r_Fetch r_Head r_Reference].
  destruct (r_Worktree r) as [?|w]; [reflexivity|].
  destruct (w_Status w) as [?|status]; [reflexivity|].
  destruct (getSignersFromAgent env) as [?|signers]; [reflexivity|].
  destruct (Z.eqb (Z.of_nat (length signers)) 0); [reflexivity|].
  destruct (r_Remotes r) as [?|remotes]; [reflexivity|].
  destruct (deriveUsername remotes) as [username| |]; [|reflexivity..].
  destruct (NewSSHAgentAuth env username) as [?|auth]; [reflexivity|].
  rewrite (Hagree (authUser auth)). reflexivity.
Qed.

(** X11. The handle of the agent is never asked for with an empty user
    name: two environments that differ only in what [NewSSHAgentAuth]
    answers to the empty name give the same visit. *)
Theorem auth_never_built_for_empty_user (r : Repository) (env env' : Env)
    (path : string) :
  os_Getenv env = os_Getenv env' ->
  net_Dial env = net_Dial env' ->
  (forall user, user <> "" -> NewSSHAgentAuth env user = NewSSHAgentAuth env' user) ->
  checkRepository r env path = checkRepository r env' path.
Proof.
  intros Hgetenv Hdial Hauth. unfold checkRepository, try, step_bind.
  assert (Hsigners : getSignersFromAgent env = getSignersFromAgent env').
  { unfold getSignersFromAgent. rewrite Hgetenv, Hdial. reflexivity. }
  rewrite Hsigners.
  destruct (r_Worktree r) as [?|w]; [reflexivity|].
  destruct (w_Status w) as [?|status]; [reflexivity|].
  destruct (getSignersFromAgent env') as [?|signers]; [reflexivity|].
  destruct (Z.eqb (Z.of_nat (length signers)) 0); [reflexivity|].
  destruct (r_Remotes r) as [?|remotes]; [reflexivity|].
  destruct (deriveUsername remotes) as [username| |] eqn:Huser; [|reflexivity..].
  rewrite (Hauth username (deriveUsername_not_empty remotes username Huser)).
  reflexivity.
Qed.

(** Without an agent a visit is given up before it can panic or record. *)
Lemma agentDown_abandons (r : Repository) (env : Env) (path : string) :
  agentDown env = true ->
  exists f e, checkRepository r env path = Abandon f e.
Proof.
  unfold agentDown. intros Hdown.
  unfold checkRepository, try, step_bind.
  destruct (r_Worktree r) as [?|w]; [eauto|].
  destruct (w_Status w) as [?|status]; [eauto|].
  unfold getSignersFromAgent.
  destruct (net_Dial env "unix" (os_Getenv env "SSH_AUTH_SOCK")); [eauto|discriminate].
Qed.

Lemma everyEnv_node (test : Env -> bool) (opened : option (Repository * Env))
    (files : list DirEnt) :
  everyEnv test (MkNode opened (Ok files)) = true ->
  Forall (fun f => everyEnv test (entTarget f) = true) files.
Proof.
  cbn [everyEnv]. intros [_ Hfiles]%andb_prop. revert Hfiles.
  induction files as [|[name mode target] rest IH]; [constructor|].
  intros [Htarget Hrest]%andb_prop. constructor; [exact Htarget|apply IH, Hrest].
Qed.

Lemma everyEnv_here (test : Env -> bool) (r : Repository) (env : Env)
    (listing : result (list DirEnt)) :
  everyEnv test (MkNode (Some (r, env)) listing) = true -> test env = true.
Proof.
  destruct listing as [e|files]; cbn [everyEnv]; [auto|].
  intros [Hhere _]%andb_prop. exact Hhere.
Qed.

Lemma walk_without_agent_adds_nothing (v : Variant) (maxDepth : Z) (n : FsNode) :
  everyEnv agentDown n = true ->
  forall path depth st,
    exists st', visitAndCheckGit v maxDepth n path depth st = Returned st'
                /\ repos st' = repos st.
Proof.
  assert (Hrepo : forall r env listing,
             everyEnv agentDown (MkNode (Some (r, env)) listing) = true ->
             forall path depth st,
               exists st',
                 visitAndCheckGit v maxDepth (MkNode (Some (r, env)) listing)
                   path depth st = Returned st'
                 /\ repos st' = repos st).
  { intros r env listing Hdown%everyEnv_here path depth st.
    cbn [visitAndCheckGit]. destruct (Z.gtb depth maxDepth); [eauto|].
    destruct (agentDown_abandons r env path Hdown) as (f & e & ->).
    eexists. split; reflexivity. }
  induction n as [opened e|opened files IH] using FsNode_tree_ind;
    intros Hdown path depth st.
  - destruct opened as [[r env]|]; [apply Hrepo, Hdown|].
    cbn [visitAndCheckGit]. destruct (Z.gtb depth maxDepth); [eauto|].
    eexists. split; reflexivity.
  - destruct opened as [[r env]|]; [apply Hrepo, Hdown|].
    cbn [visitAndCheckGit]. destruct (Z.gtb depth maxDepth); [eauto|].
    apply everyEnv_node in Hdown.
    assert (Hloop : forall s, exists st',
               rangeFiles v (visitAndCheckGit v maxDepth) path depth files s
               = Returned st' /\ repos st' = repos s).
    { induction files as [|[name mode target] rest IHrest]; intros s;
        cbn [rangeFiles]; [eauto|].
      apply Forall_cons in IH as [IHtarget IH].
      apply Forall_cons in Hdown as [Htarget Hdown].
      cbn [entTarget] in IHtarget, Htarget.
      destruct (descends v mode); [|apply IHrest; assumption].
      destruct (IHtarget Htarget (filepath_Join path name) (GoInt.incr depth) s)
        as (s' & -> & Hs').
      destruct (IHrest IH Hdown s') as (st' & -> & Hst').
      eexists. split; [reflexivity|congruence]. }
    destruct (Hloop (say (Visiting path depth) st)) as (st' & -> & Hst').
    eauto.
Qed.

(** X12. Where no agent answers on the socket of [SSH_AUTH_SOCK] at any
    repository, [main] runs to its end and prints nothing, whatever the
    tree, the depth and the arguments. *)
Theorem main_without_agent_prints_nothing (v : Variant) (depthFlag : option Z)
    (args : list string) (fs : string -> FsNode) :
  (forall path, everyEnv agentDown (fs path) = true) ->
  main v depthFlag args fs = Some [].
Proof.
  intros Hdown. unfold main.
  destruct (walk_without_agent_adds_nothing v
              match depthFlag with Some d => d | None => 4 end
              (fs match args with arg0 :: _ => arg0 | [] => "." end)
              (Hdown _)
              match args with arg0 :: _ => arg0 | [] => "." end 0 emptyStore)
    as (st' & -> & Hrepos).
  rewrite Hrepos. reflexivity.
Qed.

(** X13. Below a path that opens as a repository nothing is looked at:
    the walk of a tree is the walk of the tree with the listings of its
    repositories emptied, so a repository nested in another is not
    reported. *)
Theorem nested_repositories_not_visited (v : Variant) (maxDepth : Z)
    (n : FsNode) (path : string) (depth : Z) (st : Store) :
  visitAndCheckGit v maxDepth (withoutNested n) path depth st
  = visitAndCheckGit v maxDepth n path depth st.
Proof.
  revert path depth st.
  induction n as [opened e|opened files IH] using FsNode_tree_ind;
    intros path depth st.
  - destruct opened as [[r env]|]; reflexivity.
  - destruct opened as [[r env]|]; [reflexivity|].
    cbn [visitAndCheckGit withoutNested].
    destruct (Z.gtb depth maxDepth); [reflexivity|].
    generalize (say (Visiting path depth) st). clear st.
    induction IH as [|[name mode target] rest Htarget _ IHrest]; intros st;
      cbn [rangeFiles]; [reflexivity|].
    destruct (descends v mode); [|apply IHrest].
    cbn [entTarget] in Htarget. rewrite Htarget.
    destruct (visitAndCheckGit v maxDepth target _ _ st);
      [apply IHrest | reflexivity].
Qed.

End Asks.

Lemma fetch_only_from_origin_unchecked_witness :
  checkRepository (H := Plain.libs)
    (withFetch Sample.github MoreSamples.originOnly) Sample.env "root/a"
  = checkRepository (H := Plain.libs)
      (withFetch Sample.github (fun _ => None)) Sample.env "root/a".
Proof.
  apply (fetch_only_from_origin_unchecked (H := Plain.libs) Sample.github
           Sample.env "root/a" MoreSamples.originOnly (fun _ => None)).
  intros user. reflexivity.
Defined.

Lemma auth_never_built_for_empty_user_witness :
  checkRepository (H := Plain.libs) Sample.github Sample.env "root/a"
  = checkRepository (H := Plain.libs) Sample.github MoreSamples.strictEnv "root/a".
Proof.
  apply (auth_never_built_for_empty_user (H := Plain.libs) Sample.github
           Sample.env MoreSamples.strictEnv "root/a").
  - reflexivity.
  - reflexivity.
  - intros user Huser. unfold MoreSamples.strictEnv. cbn [NewSSHAgentAuth].
    rewrite bool_decide_eq_false_2 by exact Huser. reflexivity.
Defined.

Lemma main_without_agent_prints_nothing_witness :
  main (H := Plain.libs) OsReadDir None ["root"] (fun _ => MoreSamples.offline)
  = Some [].
Proof.
  apply (main_without_agent_prints_nothing (H := Plain.libs) OsReadDir None
           ["root"] (fun _ => MoreSamples.offline)).
  intros path. reflexivity.
Defined.

(** ** The walk: order of the records, and the depth limit raised *)

Section Order.

Context `{GoLibs}.

(** The records the loop over a listing adds are those of the entries it
    descends into, one entry after the other. *)
Lemma rangeFiles_records (v : Variant) (maxDepth : Z) (path : string)
    (depth : Z) (files : list DirEnt) :
  forall st st',
    rangeFiles v (visitAndCheckGit v maxDepth) path depth files st = Returned st' ->
    repos st'
    = (repos st
       ++ concat (map (fun f => newRecords v maxDepth (entTarget f)
                                  (filepath_Join path (entName f)) (GoInt.incr depth))
                      (entered files)))%list.
Proof.
  induction files as [|[name mode target] rest IH]; intros st st';
    cbn [rangeFiles].
  - intros [= <-]. cbn. rewrite app_nil_r. reflexivity.
  - unfold entered. rewrite filter_cons. cbn [entMode].
    rewrite descends_isRealDir. destruct (isRealDir mode) eqn:Hmode.
    + rewrite decide_True by reflexivity.
      rewrite visit_frame.
      unfold newRecords at 1. cbn [map concat entTarget entName].
      destruct (visitAndCheckGit v maxDepth target _ _ emptyStore) as [added|added];
        cbn [runExtend storeOf]; [|discriminate].
      intros Hrest. rewrite (IH _ _ Hrest). cbn [extend repos].
      rewrite <- app_assoc. reflexivity.
    + rewrite decide_False by discriminate. apply IH.
Qed.

(** X14. The records of a directory that is no repository are the records
    of the subdirectories the walker enters, each block in the order of
    the listing, behind the records present before: the result list is in
    depth-first order. *)
Theorem directory_records_in_listing_order (v : Variant) (maxDepth : Z)
    (files : list DirEnt) (path : string) (depth : Z) (st st' : Store) :
  depth <= maxDepth ->
  visitAndCheckGit v maxDepth (MkNode None (Ok files)) path depth st = Returned st' ->
  repos st'
  = (repos st
     ++ concat (map (fun f => newRecords v maxDepth (entTarget f)
                                (filepath_Join path (entName f)) (GoInt.incr depth))
                    (entered files)))%list.
Proof.
  intros Hdepth. cbn [visitAndCheckGit].
  destruct (Z.gtb_spec depth maxDepth); [lia|].
  intros Hloop. apply rangeFiles_records in Hloop. exact Hloop.
Qed.

(** With a lower depth limit the loop over a listing records a sublist of
    what it records with a higher one, unless the latter panics. *)
Lemma rangeFiles_depth_mono (v : Variant) (lower higher : Z) (path : string)
    (depth : Z) (files : list DirEnt) :
  Forall (fun f => forall p d st',
            visitAndCheckGit v higher (entTarget f) p d emptyStore = Returned st' ->
            exists st0,
              visitAndCheckGit v lower (entTarget f) p d emptyStore = Returned st0
              /\ repos st0 `sublist_of` repos st') files ->
  forall sa sb sb',
    repos sa `sublist_of` repos sb ->
    rangeFiles v (visitAndCheckGit v higher) path depth files sb = Returned sb' ->
    exists sa',
      rangeFiles v (visitAndCheckGit v lower) path depth files sa = Returned sa'
      /\ repos sa' `sublist_of` repos sb'.
Proof.
  induction 1 as [|[name mode target] rest Htarget _ IH]; intros sa sb sb' Hsub;
    cbn [rangeFiles].
  - intros [= <-]. eauto.
  - destruct (descends v mode); [|apply IH, Hsub].
    cbn [entTarget] in Htarget.
    rewrite (visit_frame v higher), (visit_frame v lower).
    destruct (visitAndCheckGit v higher target _ _ emptyStore) as [added'|added']
      eqn:Hhigher; cbn [runExtend]; [|discriminate].
    destruct (Htarget _ _ _ Hhigher) as (added & -> & Hadded).
    cbn [runExtend]. apply IH. cbn [extend repos].
    apply sublist_app; assumption.
Qed.

Lemma visit_depth_mono (v : Variant) (lower higher : Z) (n : FsNode) :
  lower <= higher ->
  forall path depth st',
    visitAndCheckGit v higher n path depth emptyStore = Returned st' ->
    exists st0,
      visitAndCheckGit v lower n path depth emptyStore = Returned st0
      /\ repos st0 `sublist_of` repos st'.
Proof.
  intros Hle.
  assert (Hidle : forall n' path depth st',
             Z.gtb depth lower = true ->
             exists st0,
               visitAndCheckGit v lower n' path depth emptyStore = Returned st0
               /\ repos st0 `sublist_of` repos st').
  { intros n' path depth st' Hdepth. exists emptyStore. split.
    - apply visit_beyond_depth. destruct (Z.gtb_spec depth lower); [lia|discriminate].
    - apply sublist_nil_l. }
  induction n as [opened e|opened files IH] using FsNode_tree_ind;
    intros path depth st' Hhigher.
  - destruct (Z.gtb depth lower) eqn:Hlower; [apply Hidle, Hlower|].
    revert Hhigher. cbn [visitAndCheckGit]. rewrite Hlower.
    destruct (Z.gtb_spec depth higher);
      [destruct (Z.gtb_spec depth lower); [discriminate|lia]|].
    intros ->. eauto.
  - destruct (Z.gtb depth lower) eqn:Hlower; [apply Hidle, Hlower|].
    revert Hhigher. cbn [visitAndCheckGit]. rewrite Hlower.
    destruct (Z.gtb_spec depth higher);
      [destruct (Z.gtb_spec depth lower); [discriminate|lia]|].
    destruct opened as [[r env]|]; [intros ->; eauto|].
    apply (rangeFiles_depth_mono v lower higher path depth files IH).
    reflexivity.
Qed.

(** X15. Raising the depth limit loses no repository: the records of a
    walk with a lower limit are, in their order, among the records of the
    walk of the same tree with a higher limit, when that walk returns. *)
Theorem raising_depth_keeps_records (v : Variant) (lower higher : Z)
    (root : FsNode) (rootPath : string) (st' : Store) :
  lower <= higher ->
  mainWalk v higher root rootPath = Returned st' ->
  exists st0,
    mainWalk v lower root rootPath = Returned st0
    /\ repos st0 `sublist_of` repos st'.
Proof.
  intros Hle. apply visit_depth_mono, Hle.
Qed.

End Order.

Lemma directory_records_in_listing_order_witness :
  repos (storeOf (mainWalk (H := Plain.libs) OsReadDir 4 Sample.root "root"))
  = [ {| Path := "root/a"; LocalChanges := 2; RemoteChanges := 2 |};
      {| Path := "root/b/c"; LocalChanges := 2; RemoteChanges := 2 |} ].
Proof.
  destruct (mainWalk (H := Plain.libs) OsReadDir 4 Sample.root "root")
    as [st'|st'] eqn:Hwalk; [|vm_compute in Hwalk; discriminate].
  unfold mainWalk, Sample.root in Hwalk. cbn [storeOf].
  rewrite (directory_records_in_listing_order (H := Plain.libs) OsReadDir 4
             _ "root" 0 emptyStore st' ltac:(lia) Hwalk).
  vm_compute. reflexivity.
Defined.

Lemma raising_depth_keeps_records_witness :
  1 <= 4
  /\ exists st0,
       mainWalk (H := Plain.libs) OsReadDir 1 Sample.root "root" = Returned st0
       /\ repos st0
          `sublist_of`
          [ {| Path := "root/a"; LocalChanges := 2; RemoteChanges := 2 |};
            {| Path := "root/b/c"; LocalChanges := 2; RemoteChanges := 2 |} ].
Proof.
  split; [lia|].
  apply (raising_depth_keeps_records (H := Plain.libs) OsReadDir 1 4
           Sample.root "root"
           {| repos := [ {| Path := "root/a"; LocalChanges := 2; RemoteChanges := 2 |};
                         {| Path := "root/b/c"; LocalChanges := 2; RemoteChanges := 2 |} ];
              logged := [ Visiting "root" 0; Visiting "root/a" 1; Checking "root/a";
                          Visiting "root/b" 1; Visiting "root/b/c" 2;
                          Checking "root/b/c"; Visiting "root/d" 1 ] |}).
  - lia.
  - vm_compute. reflexivity.
Defined.

(** ** The walk: records and the log *)

Section Checked.

Context `{GoLibs}.

(** A property of the store that every visit of an entry keeps is kept by
    the loop over the listing. *)
Lemma rangeFiles_invariant (P : Store -> Prop) (v : Variant)
    (visit : FsNode -> string -> Z -> Store -> run)
    (path : string) (depth : Z) (files : list DirEnt) :
  Forall (fun f => forall p d s, P s -> P (storeOf (visit (entTarget f) p d s)))
         files ->
  forall st, P st -> P (storeOf (rangeFiles v visit path depth files st)).
Proof.
  induction 1 as [|[name mode target] rest Hvisit _ IH]; intros st Hst;
    cbn [rangeFiles]; [exact Hst|].
  destruct (descends v mode); [|apply IH, Hst].
  specialize (Hvisit (filepath_Join path name) (GoInt.incr depth) st Hst).
  cbn [entTarget] in Hvisit.
  destruct (visit target _ _ st) as [st'|st']; [apply IH|]; exact Hvisit.
Qed.

Lemma recordsChecked_say (l : LogLine) (st : Store) :
  recordsChecked st -> recordsChecked (say l st).
Proof.
  intros Hst rec Hin. unfold say in *. cbn [repos logged] in *.
  apply in_or_app. left. apply Hst, Hin.
Qed.

Lemma visit_recordsChecked (v : Variant) (maxDepth : Z) (n : FsNode) :
  forall path depth st,
    recordsChecked st ->
    recordsChecked (storeOf (visitAndCheckGit v maxDepth n path depth st)).
Proof.
  assert (Hrepo : forall r env listing path depth st,
             recordsChecked st ->
             recordsChecked
               (storeOf (visitAndCheckGit v maxDepth (MkNode (Some (r, env)) listing)
                           path depth st))).
  { intros r env listing path depth st Hst. cbn [visitAndCheckGit].
    destruct (Z.gtb depth maxDepth); [exact Hst|].
    destruct (checkRepository r env path) as [rec| |] eqn:Hrec; cbn [storeOf].
    - apply checkRepository_Next_inv in Hrec
        as (status & headRef & remoteRef & k & _ & _ & _ & _ & _ & ->).
      intros rec' Hin. unfold record, say in *. cbn [repos logged] in *.
      apply in_app_or in Hin as [Hin|[<-|[]]].
      + apply in_or_app. left. apply in_or_app. left. apply Hst, Hin.
      + apply in_or_app. right. left. reflexivity.
    - do 3 apply recordsChecked_say. exact Hst.
    - do 2 apply recordsChecked_say. exact Hst. }
  induction n as [opened e|opened files IH] using FsNode_tree_ind;
    intros path depth st Hst.
  - destruct opened as [[r env]|]; [apply Hrepo, Hst|]. cbn [visitAndCheckGit].
    destruct (Z.gtb depth maxDepth); [exact Hst|]. cbn [storeOf].
    do 2 apply recordsChecked_say. exact Hst.
  - destruct opened as [[r env]|]; [apply Hrepo, Hst|]. cbn [visitAndCheckGit].
    destruct (Z.gtb depth maxDepth); [exact Hst|].
    apply (rangeFiles_invariant recordsChecked); [exact IH|].
    apply recordsChecked_say, Hst.
Qed.

(** X16. Every Result Record of a walk is that of a path the walker opened
    as a repository: the log has the line "Checking path" for the path of
    the record. *)
Theorem record_paths_were_checked (v : Variant) (maxDepth : Z) (root : FsNode)
    (rootPath : string) (rec : repoStatus) :
  In rec (repos (storeOf (mainWalk v maxDepth root rootPath))) ->
  In (Checking (Path rec)) (logged (storeOf (mainWalk v maxDepth root rootPath))).
Proof.
  apply (visit_recordsChecked v maxDepth root rootPath 0 emptyStore).
  intros rec' [].
Qed.


End Checked.

Lemma record_paths_were_checked_witness :
  In {| Path := "root/b/c"; LocalChanges := 2; RemoteChanges := 2 |}
     (repos (storeOf (mainWalk (H := Plain.libs) OsReadDir 4 Sample.root "root")))
  /\ In (Checking "root/b/c")
        (logged (storeOf (mainWalk (H := Plain.libs) OsReadDir 4 Sample.root "root"))).
Proof.
  assert (Hin : In {| Path := "root/b/c"; LocalChanges := 2; RemoteChanges := 2 |}
                  (repos (storeOf (mainWalk (H := Plain.libs) OsReadDir 4
                                     Sample.root "root")))).
  { vm_compute. auto. }
  split; [exact Hin|].
  exact (record_paths_were_checked (H := Plain.libs) OsReadDir 4 Sample.root
           "root" _ Hin).
Defined.


(** ** The report *)

Lemma countNewlines_app (s1 s2 : string) :
  countNewlines (s1 +:+ s2) = (countNewlines s1 + countNewlines s2)%nat.
Proof.
  induction s1 as [|c s1 IH]; [reflexivity|].
  change (String c s1 +:+ s2) with (String c (s1 +:+ s2)).
  cbn [countNewlines]. rewrite IH. lia.
Qed.

(** The decimal digits of a number hold no line feed. *)
Lemma digits_no_newline (d : Decimal.uint) :
  countNewlines (NilEmpty.string_of_uint d) = 0%nat.
Proof. induction d; cbn [NilEmpty.string_of_uint countNewlines]; auto. Qed.

Lemma showInt_no_newline (n : Z) : countNewlines (showInt n) = 0%nat.
Proof.
  unfold showInt, NilZero.string_of_int, NilZero.string_of_uint.
  destruct (Z.to_int n) as [d|d]; destruct d;
    cbn [countNewlines]; rewrite ?digits_no_newline; try reflexivity;
    cbn [NilEmpty.string_of_uint countNewlines]; rewrite ?digits_no_newline;
    reflexivity.
Qed.

(** X18. When no recorded path holds a line feed, the text [main] writes
    for the records has exactly three lines for each record. *)
Theorem report_three_lines_per_record (rs : list repoStatus) :
  Forall (fun repo => countNewlines (Path repo) = 0%nat) rs ->
  countNewlines (stdoutText (reportWrites rs)) = (3 * length rs)%nat.
Proof.
  induction 1 as [|repo rest Hpath _ IH]; [reflexivity|].
  cbn [reportWrites reportOf app stdoutText length].
  rewrite !countNewlines_app, IH, Hpath, !showInt_no_newline.
  change (countNewlines "In Folder [") with 0%nat.
  change (countNewlines "]: git present") with 0%nat.
  change (countNewlines "Local Changes: ") with 0%nat.
  change (countNewlines "Remote Changes: ") with 0%nat.
  change (countNewlines newline) with 1%nat.
  lia.
Qed.

Lemma report_three_lines_per_record_witness :
  countNewlines
    (stdoutText
       (reportWrites
          [ {| Path := "root/a"; LocalChanges := 2; RemoteChanges := 0 |};
            {| Path := "root/b/c"; LocalChanges := 0; RemoteChanges := 12 |} ]))
  = 6%nat.
Proof.
  apply (report_three_lines_per_record
           [ {| Path := "root/a"; LocalChanges := 2; RemoteChanges := 0 |};
             {| Path := "root/b/c"; LocalChanges := 0; RemoteChanges := 12 |} ]).
  repeat constructor.
Defined.
